(** * SnippingWidget: the preprocessing pipeline and the window's event handlers

    A shallow embedding of [src/snipping_tool.py].

    - Part I embeds [MainWindow.preprocess_image] together with the pieces of
      Pillow and NumPy it calls: [Image.convert('L')], [ImageStat.Stat.mean],
      [ImageEnhance.Contrast], [Image.blend], [ImageFilter.SHARPEN] and
      [np.mean].
    - Part II embeds the event handlers [SnippingWidget.mouseReleaseEvent],
      [SnippingWidget.capture_region], [MainWindow.process_capture] and
      [MainWindow.extract_text] as state transformers that also record the
      calls made to the outside world.

    Rasters are lists of rows, pixel values are integers, the real-valued
    intermediate results (means, kernel sums) are rationals. *)

From Stdlib Require Import String Ascii.
From Stdlib Require Import ZArith QArith Qround List Bool Lia Lqa.
Import ListNotations.

Local Open Scope Z_scope.

(** ** Exceptions

    A Python call either returns a value or raises; [Raise] carries [str(e)]. *)

Inductive result (A : Type) : Type :=
| Ok (a : A)
| Raise (msg : string).

Arguments Ok {A} a.
Arguments Raise {A} msg.

Definition bind {A B : Type} (r : result A) (k : A -> result B) : result B :=
  match r with
  | Ok a => k a
  | Raise msg => Raise msg
  end.

Notation "x <- r ;; k" := (bind r (fun x => k))
  (at level 61, r at next level, right associativity).

(** ** Index-aware map, used by the row and column loops *)

Fixpoint mapi_from {A B : Type} (f : nat -> A -> B) (i : nat) (l : list A) : list B :=
  match l with
  | [] => []
  | a :: t => f i a :: mapi_from f (S i) t
  end.

Definition mapi {A B : Type} (f : nat -> A -> B) (l : list A) : list B :=
  mapi_from f 0 l.

Fixpoint zip_with {A B C : Type} (f : A -> B -> C) (l1 : list A) (l2 : list B) : list C :=
  match l1, l2 with
  | a :: t1, b :: t2 => f a b :: zip_with f t1 t2
  | _, _ => []
  end.

Definition Zsum (l : list Z) : Z := fold_right Z.add 0 l.

(** Strict comparison on rationals, as a boolean. *)
Definition Qlt_bool (a b : Q) : bool := negb (Qle_bool b a).

(** * Part I: the image pipeline *)

(** ** Rasters *)

(** A colour pixel. An alpha channel, when the capture has one, plays no part:
    [convert('L')] reads the three colour bands only. *)
Record RGB : Type := mkRGB { red : Z; green : Z; blue : Z }.

(** A Pillow image: its [size] and its pixel rows, top row first. *)
Record Image (P : Type) : Type := mkImage {
  xsize : nat;
  ysize : nat;
  rows : list (list P)
}.

Arguments mkImage {P} xsize ysize rows.
Arguments xsize {P} i.
Arguments ysize {P} i.
Arguments rows {P} i.

(** The raster really has [ysize] rows of [xsize] pixels each. *)
Definition well_formed {P : Type} (im : Image P) : Prop :=
  length (rows im) = ysize im /\
  Forall (fun r => length r = xsize im) (rows im).

Definition getpixel (im : Image Z) (x y : nat) : Z :=
  nth x (nth y (rows im) []) 0.

Definition pixels {P : Type} (im : Image P) : list P := concat (rows im).

(** Every pixel of the image has the same value [c]. *)
Definition uniform {P : Type} (c : P) (im : Image P) : Prop :=
  Forall (Forall (fun p => p = c)) (rows im).

Definition map_image {P R : Type} (f : P -> R) (im : Image P) : Image R :=
  mkImage (xsize im) (ysize im) (map (map f) (rows im)).

(** ** [Image.convert('L')]

    Pillow's [rgb2l]: [L24(rgb) >> 16] with
    [L24 = R*19595 + G*38470 + B*7471 + 0x8000]. *)

Definition rgb2l (p : RGB) : Z :=
  Z.shiftr (red p * 19595 + green p * 38470 + blue p * 7471 + 32768) 16.

Definition convert_L (im : Image RGB) : Image Z := map_image rgb2l im.

(** ** [ImageStat.Stat(im).mean[0]]

    [sum / count]; an image without pixels makes the division raise
    [ZeroDivisionError]. *)

Definition stat_sum (im : Image Z) : Z := Zsum (pixels im).
Definition stat_count (im : Image Z) : Z := Z.of_nat (length (pixels im)).

Definition stat_mean (im : Image Z) : result Q :=
  if stat_count im =? 0 then Raise "division by zero"
  else Ok (inject_Z (stat_sum im) / inject_Z (stat_count im))%Q.

(** ** [Image.blend(im1, im2, alpha)]

    Pillow's [ImagingBlend]: copies for [alpha] 0 and 1, interpolation with a
    cast to [UINT8] inside [0, 1], and extrapolation with clipping to
    [0, 255] outside. *)

Definition Qtrunc (v : Q) : Z :=
  if Qle_bool 0 v then Qfloor v else Qceiling v.

Definition blend_pixel (alpha : Q) (in1 in2 : Z) : Z :=
  let temp := (inject_Z in1 + alpha * (inject_Z in2 - inject_Z in1))%Q in
  if Qeq_bool alpha 0 then in1
  else if Qeq_bool alpha 1 then in2
  else if Qle_bool 0 alpha && Qle_bool alpha 1 then Qtrunc temp mod 256
  else if Qle_bool temp 0 then 0
  else if Qle_bool 255 temp then 255
  else Qtrunc temp.

Definition blend (im1 im2 : Image Z) (alpha : Q) : Image Z :=
  mkImage (xsize im1) (ysize im1)
          (zip_with (zip_with (blend_pixel alpha)) (rows im1) (rows im2)).

(** ** [ImageEnhance.Contrast(image).enhance(factor)]

    [mean = int(ImageStat.Stat(image.convert("L")).mean[0] + 0.5)];
    [degenerate = Image.new("L", image.size, mean)];
    [enhance(factor) = Image.blend(degenerate, image, factor)]. *)

Definition contrast_mean (im : Image Z) : result Z :=
  m <- stat_mean im ;;
  Ok (Qtrunc (m + (1 # 2))%Q).

Definition Image_new (w h : nat) (color : Z) : Image Z :=
  mkImage w h (repeat (repeat color w) h).

Definition Contrast_enhance (im : Image Z) (factor : Q) : result (Image Z) :=
  mean <- contrast_mean im ;;
  Ok (blend (Image_new (xsize im) (ysize im) mean) im factor).

(** ** [image.filter(ImageFilter.SHARPEN)]

    [SHARPEN.filterargs = (3, 3), 16, 0, (-2,-2,-2, -2,32,-2, -2,-2,-2)].
    The kernel is divided by the scale before [ImagingFilter3x3] runs; that
    loop leaves the first and last row and the first and last pixel of every
    row as they are, and writes [clip8(offset + 0.5 + sum)] elsewhere. An
    image narrower or lower than the kernel is copied. *)

Record Kernel : Type := mkKernel {
  kscale : Q;
  koffset : Q;
  kweights : list Q      (* nine weights, row by row *)
}.

Definition SHARPEN : Kernel :=
  mkKernel 16%Q 0%Q [-2; -2; -2;
                 -2; 32; -2;
                 -2; -2; -2]%Q.

Definition clip8 (v : Q) : Z :=
  if Qle_bool v 0 then 0
  else if Qle_bool 255 v then 255
  else Qfloor v.

Definition kw (k : Kernel) (i : nat) : Q := (nth i (kweights k) 0 / kscale k)%Q.

(** [KERNEL1x3(in, x, &kernel[i], 1)] on row [y]. *)
Definition kernel1x3 (k : Kernel) (i : nat) (im : Image Z) (x y : nat) : Q :=
  (inject_Z (getpixel im (x - 1) y) * kw k i
   + inject_Z (getpixel im x y) * kw k (i + 1)
   + inject_Z (getpixel im (x + 1) y) * kw k (i + 2))%Q.

Definition filter_sum (k : Kernel) (im : Image Z) (x y : nat) : Q :=
  (koffset k + (1 # 2)
   + kernel1x3 k 0 im x (y + 1)
   + kernel1x3 k 3 im x y
   + kernel1x3 k 6 im x (y - 1))%Q.

Definition on_border (im : Image Z) (x y : nat) : bool :=
  (x =? 0)%nat || (y =? 0)%nat
  || (S x =? xsize im)%nat || (S y =? ysize im)%nat.

Definition filter3x3 (k : Kernel) (im : Image Z) : Image Z :=
  mkImage (xsize im) (ysize im)
    (mapi (fun y row =>
             mapi (fun x v =>
                     if on_border im x y then v
                     else clip8 (filter_sum k im x y)) row)
          (rows im)).

Definition Image_filter (k : Kernel) (im : Image Z) : Image Z :=
  if (xsize im <? 3)%nat || (ysize im <? 3)%nat then im
  else filter3x3 k im.

(** ** NumPy: [np.array], [np.mean], comparison, [astype(np.uint8)]

    [np.mean] of an integer array accumulates in double precision: the sum of
    the pixels is exact, and for arrays of fewer than 2^44 pixels the rounded
    quotient compares with an integer pixel value exactly as the rational
    quotient does, so the threshold is kept as a rational. *)

Record ndarray : Type := mkArray {
  shape : nat * nat;        (* (rows, columns) *)
  data : list (list Z)
}.

Definition np_array (im : Image Z) : ndarray :=
  mkArray (ysize im, xsize im) (rows im).

Definition np_mean (a : ndarray) : Q :=
  (inject_Z (Zsum (concat (data a)))
   / inject_Z (Z.of_nat (length (concat (data a)))))%Q.

Definition np_map (f : Z -> Z) (a : ndarray) : ndarray :=
  mkArray (shape a) (map (map f) (data a)).

(** [(a > threshold) * 255] *)
Definition greater_times_255 (threshold : Q) (a : ndarray) : ndarray :=
  np_map (fun v => (if Qlt_bool threshold (inject_Z v) then 1 else 0) * 255) a.

Definition astype_uint8 (a : ndarray) : ndarray :=
  np_map (fun v => v mod 256) a.

Definition Image_fromarray (a : ndarray) : Image Z :=
  mkImage (snd (shape a)) (fst (shape a)) (data a).

(** ** [MainWindow.preprocess_image] *)

Definition gray_stage (image : Image RGB) : Image Z := convert_L image.

Definition enhanced_stage (image : Image RGB) : result (Image Z) :=
  Contrast_enhance (gray_stage image) 2%Q.

Definition sharpened_stage (image : Image RGB) : result (Image Z) :=
  enhanced <- enhanced_stage image ;;
  Ok (Image_filter SHARPEN enhanced).

Definition binarize (sharpened : Image Z) : Image Z :=
  let img_array := np_array sharpened in
  let threshold := np_mean img_array in
  let binary := greater_times_255 threshold img_array in
  Image_fromarray (astype_uint8 binary).

Definition preprocess_image (image : Image RGB) : result (Image Z) :=
  sharpened <- sharpened_stage image ;;
  Ok (binarize sharpened).

(** Sample images. *)

Definition grey (v : Z) : RGB := mkRGB v v v.

Definition img_3x3 : Image RGB :=
  mkImage 3 3 [[grey 51; grey 51; grey 51];
               [grey 51; grey 56; grey 51];
               [grey 51; grey 51; grey 51]].

(** * Part II: the event handlers *)

(** ** Strings: [sub in s], [s.strip()], [sep.join(l)] *)

Fixpoint contains (sub s : string) : bool :=
  match s with
  | EmptyString => prefix sub EmptyString
  | String _ s' => prefix sub s || contains sub s'
  end.

(** Python's [str.isspace] on the code points below 256. *)
Definition is_space (c : ascii) : bool :=
  let n := nat_of_ascii c in
  ((9 <=? n) && (n <=? 13) || (28 <=? n) && (n <=? 32)
   || (n =? 133) || (n =? 160))%nat.

Fixpoint lstrip (s : string) : string :=
  match s with
  | EmptyString => EmptyString
  | String c s' => if is_space c then lstrip s' else s
  end.

Fixpoint rstrip (s : string) : string :=
  match s with
  | EmptyString => EmptyString
  | String c s' =>
      match rstrip s' with
      | EmptyString => if is_space c then EmptyString else String c EmptyString
      | r => String c r
      end
  end.

Definition strip (s : string) : string := rstrip (lstrip s).

(** Truth value of a Python string: non-empty. *)
Definition truthy (s : string) : bool :=
  match s with
  | EmptyString => false
  | String _ _ => true
  end.

Fixpoint whitespace_only (s : string) : bool :=
  match s with
  | EmptyString => true
  | String c s' => is_space c && whitespace_only s'
  end.

Definition newline : string := String (ascii_of_nat 10) EmptyString.

Definition join (sep : string) (l : list string) : string := String.concat sep l.

(** ** Qt geometry: [QPoint], [QRect] *)

Record QPoint : Type := mkPoint { px : Z; py : Z }.

(** A [QRect] stores its corners [x1, y1, x2, y2], both inclusive. *)
Record QRect : Type := mkRect { x1 : Z; y1 : Z; x2 : Z; y2 : Z }.

(** [QRect(topLeft, bottomRight)] *)
Definition QRect_of (topLeft bottomRight : QPoint) : QRect :=
  mkRect (px topLeft) (py topLeft) (px bottomRight) (py bottomRight).

Definition width (r : QRect) : Z := x2 r - x1 r + 1.
Definition height (r : QRect) : Z := y2 r - y1 r + 1.

(** Qt 5's [QRect::normalized]: swaps the corners of a rectangle whose width
    or height is negative. *)
Definition normalized (r : QRect) : QRect :=
  let '(nx1, nx2) := if x2 r <? x1 r - 1 then (x2 r, x1 r) else (x1 r, x2 r) in
  let '(ny1, ny2) := if y2 r <? y1 r - 1 then (y2 r, y1 r) else (y1 r, y2 r) in
  mkRect nx1 ny1 nx2 ny2.

(** ** The main window *)

Record MainWindow : Type := mkWindow {
  visible : bool;
  captured_image : option (Image RGB);
  extracted_text : option string;      (* [None]: the attribute is not set *)
  image_label : option (Image RGB);    (* the pixmap shown, if any *)
  text_label : string;
  ocr_combo : nat;                     (* current index *)
  snip_btn : bool;                     (* enabled? *)
  paste_btn : bool;
  extract_btn : bool;
  copy_btn : bool
}.

Definition ocr_items : list string :=
  ["Tesseract (Fast)";
   "EasyOCR (Accurate - Not Installed)";
   "Cloud API (Premium - Not Implemented)"]%string.

Definition currentText (w : MainWindow) : string :=
  nth (ocr_combo w) ocr_items EmptyString.

(** [MainWindow.__init__] with [init_ui]. *)
Definition MainWindow_init : MainWindow :=
  {| visible := false;
     captured_image := None;
     extracted_text := None;
     image_label := None;
     text_label := "Extracted text will appear here";
     ocr_combo := 0;
     snip_btn := true;
     paste_btn := true;
     extract_btn := false;
     copy_btn := false |}.

Definition set_text_label (t : string) (w : MainWindow) : MainWindow :=
  {| visible := visible w;
     captured_image := captured_image w;
     extracted_text := extracted_text w;
     image_label := image_label w;
     text_label := t;
     ocr_combo := ocr_combo w;
     snip_btn := snip_btn w;
     paste_btn := paste_btn w;
     extract_btn := extract_btn w;
     copy_btn := copy_btn w |}.

Definition set_extracted_text (t : string) (w : MainWindow) : MainWindow :=
  {| visible := visible w;
     captured_image := captured_image w;
     extracted_text := Some t;
     image_label := image_label w;
     text_label := text_label w;
     ocr_combo := ocr_combo w;
     snip_btn := snip_btn w;
     paste_btn := paste_btn w;
     extract_btn := extract_btn w;
     copy_btn := copy_btn w |}.

Definition set_copy_btn (b : bool) (w : MainWindow) : MainWindow :=
  {| visible := visible w;
     captured_image := captured_image w;
     extracted_text := extracted_text w;
     image_label := image_label w;
     text_label := text_label w;
     ocr_combo := ocr_combo w;
     snip_btn := snip_btn w;
     paste_btn := paste_btn w;
     extract_btn := extract_btn w;
     copy_btn := b |}.

Definition set_ocr_combo (i : nat) (w : MainWindow) : MainWindow :=
  {| visible := visible w;
     captured_image := captured_image w;
     extracted_text := extracted_text w;
     image_label := image_label w;
     text_label := text_label w;
     ocr_combo := i;
     snip_btn := snip_btn w;
     paste_btn := paste_btn w;
     extract_btn := extract_btn w;
     copy_btn := copy_btn w |}.

(** ** Calls that leave the handler *)

(** One entry of EasyOCR's [readtext] result; [item[1]] is the text. *)
Record ocr_item : Type := mkItem { item_box : list (Z * Z); item_text : string; item_conf : Q }.

Inductive call : Type :=
| ProcessEvents                                   (* QApplication.processEvents() *)
| CaptureRegion (rect : QRect)                    (* self.capture_region(rect) *)
| ProcessCapture (image : Image RGB)              (* parent.process_capture(image) *)
| Preprocess (image : Image RGB)                  (* self.preprocess_image(image) *)
| Tesseract (image : Image Z) (config : string)   (* pytesseract.image_to_string *)
| ImportEasyOCR                                   (* import easyocr *)
| EasyOCR (image : Image Z)                       (* Reader(['en']).readtext *)
| MessageBoxWarning (title text : string).        (* QMessageBox.warning *)

(** Calls that reach an OCR backend; EasyOCR's reader is the only one that may
    use the network (it fetches its models). *)
Definition is_backend_call (c : call) : bool :=
  match c with
  | Tesseract _ _ | ImportEasyOCR | EasyOCR _ => true
  | _ => false
  end.

Definition is_downstream_call (c : call) : bool :=
  match c with
  | CaptureRegion _ | ProcessCapture _ | Preprocess _ => true
  | c => is_backend_call c
  end.

(** How the OCR collaborators answer. [easyocr = None]: the import raises
    [ImportError]. *)
Record OCR : Type := mkOCR {
  image_to_string : Image Z -> string -> result string;
  easyocr : option (Image Z -> result (list ocr_item))
}.

(** ** [MainWindow.process_capture] *)

Definition process_capture (image : Image RGB) (w : MainWindow) : MainWindow :=
  {| visible := true;
     captured_image := Some image;
     extracted_text := extracted_text w;
     image_label := Some image;
     text_label := "Image captured! Click 'Extract Text' to process.";
     ocr_combo := ocr_combo w;
     snip_btn := snip_btn w;
     paste_btn := paste_btn w;
     extract_btn := true;
     copy_btn := copy_btn w |}.

(** ** [MainWindow.extract_text] *)

(** The body of the [try] block up to the assignment of [text]: the value or
    the exception, and the calls made. *)
Definition recognize (ocr : OCR) (w : MainWindow) (image : Image RGB)
  : result string * list call :=
  match preprocess_image image with
  | Raise e => (Raise e, [Preprocess image])
  | Ok processed_image =>
      let engine := currentText w in
      if contains "Tesseract" engine then
        (image_to_string ocr processed_image "--psm 6",
         [Preprocess image; Tesseract processed_image "--psm 6"])
      else if contains "EasyOCR" engine then
        match easyocr ocr with
        | Some readtext =>
            (res <- readtext processed_image ;;
             Ok (join newline (map item_text res)),
             [Preprocess image; ImportEasyOCR; EasyOCR processed_image])
        | None =>
            (Ok "EasyOCR not installed. Please install with: pip install easyocr"%string,
             [Preprocess image; ImportEasyOCR])
        end
      else
        (Ok "Cloud API not implemented in this demo"%string, [Preprocess image])
  end.

Definition extract_text (ocr : OCR) (w : MainWindow) : MainWindow * list call :=
  match captured_image w with
  | None => (w, [])
  | Some image =>
      let w1 := set_text_label "Processing... Please wait." w in
      let '(r, calls) := recognize ocr w1 image in
      match r with
      | Ok text =>
          if truthy (strip text) then
            (set_copy_btn true (set_extracted_text text (set_text_label text w1)),
             ProcessEvents :: calls)
          else
            (set_copy_btn false (set_text_label "No text detected in image" w1),
             ProcessEvents :: calls)
      | Raise e =>
          (set_text_label ("Error during OCR: " ++ e) w1,
           ProcessEvents :: calls
             ++ [MessageBoxWarning "OCR Error" ("Failed to extract text: " ++ e)])
      end
  end.

(** ** The snipping overlay *)

Record SnippingWidget : Type := mkWidget {
  begin : QPoint;
  end_ : QPoint;
  is_selecting : bool;
  screenshot : option (Image RGB);
  rubber_band : bool;                  (* shown? *)
  shown : bool;
  closed : bool
}.

Definition mousePressEvent (pos : QPoint) (s : SnippingWidget) : SnippingWidget :=
  {| begin := pos; end_ := pos; is_selecting := true;
     screenshot := screenshot s; rubber_band := true;
     shown := shown s; closed := closed s |}.

Definition mouseMoveEvent (pos : QPoint) (s : SnippingWidget) : SnippingWidget :=
  if is_selecting s then
    {| begin := begin s; end_ := pos; is_selecting := true;
       screenshot := screenshot s; rubber_band := rubber_band s;
       shown := shown s; closed := closed s |}
  else s.

Section Capture.

(** [QPixmap.copy(rect)] followed by the PNG round trip into Pillow. *)
Variable crop : Image RGB -> QRect -> Image RGB.

(** [SnippingWidget.capture_region]; the overlay's parent is the main
    window that created it. *)
Definition capture_region (s : SnippingWidget) (parent : MainWindow) (rect : QRect)
  : MainWindow * list call :=
  match screenshot s with
  | Some shot =>
      let pil_image := crop shot rect in
      (process_capture pil_image parent, [ProcessCapture pil_image])
  | None => (parent, [])
  end.

Definition mouseReleaseEvent (s : SnippingWidget) (parent : MainWindow)
  : SnippingWidget * MainWindow * list call :=
  let rect := normalized (QRect_of (begin s) (end_ s)) in
  let '(parent', calls) :=
    if (10 <? width rect) && (10 <? height rect) then
      let '(p, cs) := capture_region s parent rect in
      (p, CaptureRegion rect :: cs)
    else (parent, []) in
  ({| begin := begin s; end_ := end_ s; is_selecting := false;
      screenshot := screenshot s; rubber_band := false;
      shown := false; closed := true |},
   parent', calls).

End Capture.

(** ** Statements of the specification, in its own words *)

(** The cross-shaped kernel [[0,-1,0],[-1,5,-1],[0,-1,0]] the specification
    names for the sharpening stage. *)
Definition CROSS : Kernel :=
  mkKernel 1%Q 0%Q [ 0; -1;  0;
                    -1;  5; -1;
                     0; -1;  0]%Q.

Definition clamp (lo hi v : Z) : Z := Z.max lo (Z.min hi v).

(** [clamp(mean + (v - mean) * 2.0, 0, 255)] over the rationals. *)
Definition Qclamp (lo hi v : Q) : Q :=
  if Qle_bool v lo then lo else if Qle_bool hi v then hi else v.

Definition stretch (mean : Q) (v : Z) : Q :=
  Qclamp 0 255 (mean + (inject_Z v - mean) * 2)%Q.

Definition in_bounds {P : Type} (im : Image P) (x y : nat) : Prop :=
  (x < xsize im)%nat /\ (y < ysize im)%nat.

Definition eight_bit (image : Image RGB) : Prop :=
  Forall (Forall (fun p => 0 <= red p <= 255 /\ 0 <= green p <= 255
                           /\ 0 <= blue p <= 255)) (rows image).

(** The value [binarize] writes for a pixel [v] under threshold [t]. *)
Definition level (t : Q) (v : Z) : Z :=
  ((if Qlt_bool t (inject_Z v) then 1 else 0) * 255) mod 256.

(** The kernel sum of [SHARPEN], written out: weight 2 at the centre and
    -1/8 on each of the eight neighbours, plus the rounding offset 1/2. *)
Definition sharpen_sum (im : Image Z) (x y : nat) : Q :=
  ((1 # 2)
   + 2 * inject_Z (getpixel im x y)
   - (1 # 8) * (inject_Z (getpixel im (x - 1) (y - 1))
                + inject_Z (getpixel im x (y - 1))
                + inject_Z (getpixel im (x + 1) (y - 1))
                + inject_Z (getpixel im (x - 1) y)
                + inject_Z (getpixel im (x + 1) y)
                + inject_Z (getpixel im (x - 1) (y + 1))
                + inject_Z (getpixel im x (y + 1))
                + inject_Z (getpixel im (x + 1) (y + 1))))%Q.

(** The mean luminance of a grayscale image, as a rational. *)
Definition mean_luminance (gray : Image Z) : Q :=
  (inject_Z (stat_sum gray) / inject_Z (stat_count gray))%Q.

(** The sharpening stage as the specification words it: every interior pixel
    is the clipped response of the cross-shaped kernel. *)
Definition sharpen_as_specified (image : Image RGB) : Prop :=
  forall enhanced sharpened,
    enhanced_stage image = Ok enhanced ->
    sharpened_stage image = Ok sharpened ->
    forall x y, in_bounds enhanced x y -> on_border enhanced x y = false ->
      getpixel sharpened x y = clip8 (filter_sum CROSS enhanced x y).

Definition img_2x1 : Image RGB := mkImage 2 1 [[grey 0; grey 1]].

Definition img_4x1 : Image RGB := mkImage 4 1 [[grey 0; grey 0; grey 0; grey 1]].

Definition img_flat : Image RGB :=
  mkImage 4 3 [[grey 200; grey 200; grey 200; grey 200];
               [grey 200; grey 200; grey 200; grey 200];
               [grey 200; grey 200; grey 200; grey 200]].

(** ** States the window can be in *)

(** [MainWindow.start_snipping] hides the window while the overlay is up. *)
Definition start_snipping (w : MainWindow) : MainWindow :=
  {| visible := false;
     captured_image := captured_image w;
     extracted_text := extracted_text w;
     image_label := image_label w;
     text_label := text_label w;
     ocr_combo := ocr_combo w;
     snip_btn := snip_btn w;
     paste_btn := paste_btn w;
     extract_btn := extract_btn w;
     copy_btn := copy_btn w |}.

(** The states reached from the initial window by captures, engine
    selections and clicks on the extract button while it is enabled. *)
Inductive reachable : MainWindow -> Prop :=
| reach_init : reachable MainWindow_init
| reach_snip w : reachable w -> reachable (start_snipping w)
| reach_capture w image : reachable w -> reachable (process_capture image w)
| reach_select w i :
    reachable w -> (i < length ocr_items)%nat -> reachable (set_ocr_combo i w)
| reach_extract w ocr :
    reachable w -> extract_btn w = true -> reachable (fst (extract_text ocr w)).


(** Tesseract stand-ins: one that reads a fixed text, one that fails. *)
Definition ocr_returning (t : string) : OCR := mkOCR (fun _ _ => Ok t) None.

(** A capture, a successful extraction, then an extraction that finds only
    white space. *)
Definition window_after_blank : MainWindow :=
  fst (extract_text (ocr_returning "  ")
        (fst (extract_text (ocr_returning "HELLO")
               (process_capture img_3x3 MainWindow_init)))).

Definition cloud_window : MainWindow :=
  set_ocr_combo 2 (process_capture img_3x3 MainWindow_init).

Definition click : SnippingWidget :=
  mousePressEvent (mkPoint 40 40)
    (mkWidget (mkPoint 0 0) (mkPoint 0 0) false (Some img_3x3) false true false).

(** ** The rest of the overlay: [__init__], [start_snip], [keyPressEvent] *)

(** [SnippingWidget.__init__]: [QPoint()] is the origin. *)
Definition SnippingWidget_init : SnippingWidget :=
  {| begin := mkPoint 0 0; end_ := mkPoint 0 0; is_selecting := false;
     screenshot := None; rubber_band := false;
     shown := false; closed := false |}.

(** [SnippingWidget.start_snip]; [shot] is what [screen.grabWindow(0)]
    returned. *)
Definition start_snip (shot : Image RGB) (s : SnippingWidget) : SnippingWidget :=
  {| begin := begin s; end_ := end_ s; is_selecting := is_selecting s;
     screenshot := Some shot; rubber_band := rubber_band s;
     shown := true; closed := closed s |}.

(** [Qt.Key_Escape] *)
Definition Key_Escape : Z := 16777216.

Definition keyPressEvent (key : Z) (s : SnippingWidget) : SnippingWidget :=
  if key =? Key_Escape then
    {| begin := begin s; end_ := end_ s; is_selecting := false;
       screenshot := screenshot s; rubber_band := false;
       shown := false; closed := true |}
  else s.

(** One use of the overlay: the main window starts the snip, the overlay
    grabs the screen, the pointer is pressed, moved and released. *)
Definition drag (press : QPoint) (moves : list QPoint) (s : SnippingWidget)
  : SnippingWidget :=
  fold_left (fun s' pos => mouseMoveEvent pos s') moves (mousePressEvent press s).

Definition snip_session (crop : Image RGB -> QRect -> Image RGB)
    (shot : Image RGB) (press : QPoint) (moves : list QPoint) (w : MainWindow)
  : SnippingWidget * MainWindow * list call :=
  mouseReleaseEvent crop
    (drag press moves (start_snip shot SnippingWidget_init))
    (start_snipping w).

(** ** [MainWindow.copy_to_clipboard] *)

Inductive clipboard_call : Type :=
| PyperclipCopy (text : string)                    (* pyperclip.copy(text) *)
| MessageBoxInformation (title text : string).     (* QMessageBox.information *)

(** [copied] is the outcome of [pyperclip.copy]; an exception it raises is
    not caught by the handler. *)
Definition copy_to_clipboard (copied : result unit) (w : MainWindow)
  : result unit * list clipboard_call :=
  match extracted_text w with
  | Some text =>
      match copied with
      | Ok _ =>
          (Ok tt, [PyperclipCopy text;
                   MessageBoxInformation "Success" "Text copied to clipboard!"])
      | Raise e => (Raise e, [PyperclipCopy text])
      end
  | None => (Ok tt, [])
  end.

(** ** [MainWindow.process_capture], interrupted

    [process_capture] shows the window and assigns [captured_image] before it
    saves the image as PNG for the preview. When [image.save] raises, the
    rest of the method does not run: the window is shown and holds the new
    image, while the preview, the label and the extract button are as
    before. *)

Definition process_capture_interrupted (image : Image RGB) (w : MainWindow)
  : MainWindow :=
  {| visible := true;
     captured_image := Some image;
     extracted_text := extracted_text w;
     image_label := image_label w;
     text_label := text_label w;
     ocr_combo := ocr_combo w;
     snip_btn := snip_btn w;
     paste_btn := paste_btn w;
     extract_btn := extract_btn w;
     copy_btn := copy_btn w |}.

(** ** [MainWindow.paste_from_clipboard] *)

(** What the clipboard's mime data answers. [clip_image] is the [QImage]
    ([None]: it is null). [urls] holds the local file paths of the URLs. *)
Record Clipboard : Type := mkClipboard {
  hasImage : bool;
  clip_image : option (Image RGB);
  hasUrls : bool;
  urls : list string
}.

Definition no_image_help : string :=
  ("Clipboard does not contain an image." ++ newline ++ newline
   ++ "Try:" ++ newline
   ++ "1. Taking a screenshot (PrtScn)" ++ newline
   ++ "2. Copying an image from a browser" ++ newline
   ++ "3. Copying an image file")%string.

(** How a handler ends: the window it leaves, the calls it made, and the
    exception that left it uncaught, if any. *)
Record outcome : Type := mkOutcome {
  window_after : MainWindow;
  calls_made : list call;
  uncaught : option string
}.

Section Paste.

(** [Image.open(file_path)]: the decoded image, or the exception raised. *)
Variable Image_open : string -> result (Image RGB).

(** [q_image.save(buffer, "PNG")] on an [io.BytesIO] followed by
    [Image.open(buffer)]: the Pillow image, or the exception raised. *)
Variable qimage_to_pil : Image RGB -> result (Image RGB).

(** [image.save(img_byte_arr, format='PNG')] inside [process_capture]. *)
Variable save_png : Image RGB -> result unit.

(** The clipboard-image branch runs outside any [try]: an exception leaves
    the handler. The file branch runs [Image.open], [process_capture] and the
    label update inside the [try]: an exception ends in the warning box,
    after whatever [process_capture] had already done. *)
Definition paste_from_clipboard (cb : Clipboard) (w : MainWindow) : outcome :=
  if hasImage cb then
    match clip_image cb with
    | None =>
        mkOutcome w
          [MessageBoxWarning "No Image" "No valid image found in clipboard"]
          None
    | Some q_image =>
        match qimage_to_pil q_image with
        | Raise e => mkOutcome w [] (Some e)
        | Ok pil_image =>
            match save_png pil_image with
            | Raise e =>
                mkOutcome (process_capture_interrupted pil_image w)
                          [ProcessCapture pil_image] (Some e)
            | Ok _ =>
                mkOutcome
                  (set_text_label
                     "Image pasted from clipboard! Click 'Extract Text' to process."
                     (process_capture pil_image w))
                  [ProcessCapture pil_image] None
            end
        end
    end
  else if hasUrls cb then
    match urls cb with
    | file_path :: _ =>
        match Image_open file_path with
        | Raise e =>
            mkOutcome w
              [MessageBoxWarning "Error" ("Could not open image file: " ++ e)]
              None
        | Ok pil_image =>
            match save_png pil_image with
            | Raise e =>
                mkOutcome (process_capture_interrupted pil_image w)
                  [ProcessCapture pil_image;
                   MessageBoxWarning "Error" ("Could not open image file: " ++ e)]
                  None
            | Ok _ =>
                mkOutcome
                  (set_text_label
                     "Image loaded from file! Click 'Extract Text' to process."
                     (process_capture pil_image w))
                  [ProcessCapture pil_image] None
            end
        end
    | [] => mkOutcome w [] None
    end
  else mkOutcome w [MessageBoxWarning "No Image" no_image_help] None.

End Paste.

(** ** Everything the user can do to the main window *)

(** [shell_interrupted] is a [process_capture] that raised after its first
    two statements, wherever it was called from. *)
Inductive shell_reachable : MainWindow -> Prop :=
| shell_init : shell_reachable MainWindow_init
| shell_snip w : shell_reachable w -> shell_reachable (start_snipping w)
| shell_release w crop s :
    shell_reachable w ->
    shell_reachable (snd (fst (mouseReleaseEvent crop s w)))
| shell_interrupted w image :
    shell_reachable w ->
    shell_reachable (process_capture_interrupted image w)
| shell_paste w open to_pil save cb :
    shell_reachable w ->
    shell_reachable (window_after (paste_from_clipboard open to_pil save cb w))
| shell_select w i :
    shell_reachable w -> (i < length ocr_items)%nat ->
    shell_reachable (set_ocr_combo i w)
| shell_extract w ocr :
    shell_reachable w -> extract_btn w = true ->
    shell_reachable (fst (extract_text ocr w)).

(** What holds of the window between two events. *)
Record shell_invariant (w : MainWindow) : Prop := mkInvariant {
  inv_snip : snip_btn w = true;
  inv_paste : paste_btn w = true;
  inv_extract : extract_btn w = true -> captured_image w <> None;
  inv_preview : image_label w <> None -> captured_image w <> None;
  inv_text : forall t, extracted_text w = Some t -> whitespace_only t = false;
  inv_copy : copy_btn w = true -> extracted_text w <> None;
  inv_combo : (ocr_combo w < length ocr_items)%nat
}.

(** ** The threshold in integers *)

(** [v] is strictly above the mean of [l]. *)
Definition above_mean (l : list Z) (v : Z) : bool :=
  Zsum l <? Z.of_nat (length l) * v.

(** * Proofs *)

(** ** Lists *)

Lemma length_mapi_from {A B : Type} (f : nat -> A -> B) (l : list A) :
  forall i, length (mapi_from f i l) = length l.
Proof.
  induction l as [|a t IH]; intros i; simpl; [reflexivity|].
  now rewrite IH.
Qed.

Lemma length_mapi {A B : Type} (f : nat -> A -> B) (l : list A) :
  length (mapi f l) = length l.
Proof. apply length_mapi_from. Qed.

Lemma nth_mapi_from {A B : Type} (f : nat -> A -> B) (da : A) (db : B) (l : list A) :
  forall i n, (n < length l)%nat ->
  nth n (mapi_from f i l) db = f (i + n)%nat (nth n l da).
Proof.
  induction l as [|a t IH]; intros i n Hn; simpl in *; [lia|].
  destruct n as [|n].
  - now rewrite Nat.add_0_r.
  - rewrite IH by lia. f_equal. lia.
Qed.

Lemma nth_mapi {A B : Type} (f : nat -> A -> B) (da : A) (db : B) (l : list A) (n : nat) :
  (n < length l)%nat -> nth n (mapi f l) db = f n (nth n l da).
Proof. intros Hn. unfold mapi. now rewrite (nth_mapi_from f da db l 0 n Hn). Qed.

Lemma Forall_mapi {A B : Type} (f : nat -> A -> B) (Q : B -> Prop) (d : A) (l : list A) :
  (forall n, (n < length l)%nat -> Q (f n (nth n l d))) ->
  Forall Q (mapi f l).
Proof.
  intros H. apply Forall_forall. intros b Hb.
  destruct (In_nth _ _ b Hb) as [n [Hn Hnth]].
  rewrite length_mapi in Hn.
  rewrite <- Hnth, (nth_mapi f d b l n Hn). now apply H.
Qed.

Lemma zip_with_repeat {A B C : Type} (f : A -> B -> C) (a : A) (l : list B) :
  forall n, length l = n -> zip_with f (repeat a n) l = map (f a) l.
Proof.
  induction l as [|b t IH]; intros n Hn; simpl in *.
  - now destruct n.
  - destruct n as [|n]; [discriminate|]. simpl. f_equal. apply IH. lia.
Qed.

Lemma zip_with_rows {A B C : Type} (f : A -> B -> C) (a : A) (w : nat) (ll : list (list B)) :
  forall h, length ll = h -> Forall (fun r => length r = w) ll ->
  zip_with (zip_with f) (repeat (repeat a w) h) ll = map (map (f a)) ll.
Proof.
  induction ll as [|r t IH]; intros h Hh Hw; simpl in *.
  - now destruct h.
  - destruct h as [|h]; [discriminate|]. simpl.
    inversion Hw as [|? ? Hr Ht]; subst. f_equal.
    + now apply zip_with_repeat.
    + apply IH; [lia | assumption].
Qed.

Lemma length_concat_rect {A : Type} (w : nat) (ll : list (list A)) :
  Forall (fun r => length r = w) ll ->
  length (concat ll) = (length ll * w)%nat.
Proof.
  induction 1 as [|r t Hr _ IH]; simpl; [reflexivity|].
  rewrite length_app, IH, Hr. reflexivity.
Qed.


Lemma Zsum_const (c : Z) (l : list Z) :
  Forall (fun p => p = c) l -> Zsum l = Z.of_nat (length l) * c.
Proof.
  induction 1 as [|a t Ha _ IH]; [reflexivity|].
  change (Zsum (a :: t)) with (a + Zsum t).
  rewrite IH, Ha. simpl length. lia.
Qed.


(** ** Sizes *)

Lemma well_formed_map {P R : Type} (f : P -> R) (im : Image P) :
  well_formed im ->
  well_formed (mkImage (xsize im) (ysize im) (map (map f) (rows im))).
Proof.
  intros [Hh Hw]. split; simpl.
  - now rewrite length_map.
  - apply Forall_map. eapply Forall_impl; [|exact Hw].
    intros r Hr. simpl in *. now rewrite length_map.
Qed.

Lemma count_pixels {P : Type} (im : Image P) :
  well_formed im -> length (pixels im) = (ysize im * xsize im)%nat.
Proof.
  intros [Hh Hw]. unfold pixels.
  now rewrite (length_concat_rect (xsize im) _ Hw), Hh.
Qed.

Lemma getpixel_map (f : Z -> Z) (im : Image Z) (x y : nat) :
  well_formed im -> in_bounds im x y ->
  getpixel (mkImage (xsize im) (ysize im) (map (map f) (rows im))) x y
  = f (getpixel im x y).
Proof.
  intros [Hh Hw] [Hx Hy]. unfold getpixel. simpl.
  assert (Hrow : length (nth y (rows im) []) = xsize im).
  { rewrite Forall_forall in Hw. apply Hw. apply nth_In. lia. }
  rewrite (nth_indep _ [] (map f []))
    by (rewrite length_map; lia).
  rewrite map_nth.
  rewrite (nth_indep _ 0 (f 0)) by (rewrite length_map; lia).
  now rewrite map_nth.
Qed.

Lemma blend_degenerate (im : Image Z) (mean : Z) (alpha : Q) :
  well_formed im ->
  blend (Image_new (xsize im) (ysize im) mean) im alpha
  = mkImage (xsize im) (ysize im) (map (map (blend_pixel alpha mean)) (rows im)).
Proof.
  intros [Hh Hw]. unfold blend, Image_new. simpl. f_equal.
  now apply zip_with_rows.
Qed.

Lemma well_formed_filter (k : Kernel) (im : Image Z) :
  well_formed im -> well_formed (Image_filter k im).
Proof.
  intros Hwf. unfold Image_filter.
  destruct ((xsize im <? 3)%nat || (ysize im <? 3)%nat); [assumption|].
  destruct Hwf as [Hh Hw]. split; simpl.
  - now rewrite length_mapi.
  - apply (Forall_mapi _ _ []). intros y Hy.
    rewrite length_mapi. rewrite Forall_forall in Hw. apply Hw.
    now apply nth_In.
Qed.

Lemma size_filter (k : Kernel) (im : Image Z) :
  xsize (Image_filter k im) = xsize im /\ ysize (Image_filter k im) = ysize im.
Proof.
  unfold Image_filter.
  destruct ((xsize im <? 3)%nat || (ysize im <? 3)%nat); now split.
Qed.

(** ** The stages of [preprocess_image] *)

Lemma stat_count_pos (im : Image Z) :
  well_formed im -> (0 < xsize im)%nat -> (0 < ysize im)%nat ->
  0 < stat_count im.
Proof.
  intros Hwf Hx Hy. unfold stat_count. rewrite (count_pixels im Hwf). nia.
Qed.

Lemma stat_mean_ok (im : Image Z) :
  0 < stat_count im ->
  stat_mean im = Ok (inject_Z (stat_sum im) / inject_Z (stat_count im))%Q.
Proof.
  intros Hc. unfold stat_mean.
  destruct (Z.eqb_spec (stat_count im) 0); [lia | reflexivity].
Qed.

Lemma gray_stage_shape (image : Image RGB) :
  well_formed image ->
  well_formed (gray_stage image)
  /\ xsize (gray_stage image) = xsize image
  /\ ysize (gray_stage image) = ysize image.
Proof.
  intros Hwf. repeat split; try reflexivity;
    apply (well_formed_map rgb2l image Hwf).
Qed.

(** On an image with pixels, contrast enhancement succeeds and rewrites every
    pixel by [blend_pixel] against the rounded mean. *)
Lemma Contrast_enhance_ok (im : Image Z) (factor : Q) :
  well_formed im -> 0 < stat_count im ->
  exists mean,
    contrast_mean im = Ok mean
    /\ Contrast_enhance im factor
       = Ok (mkImage (xsize im) (ysize im)
                     (map (map (blend_pixel factor mean)) (rows im))).
Proof.
  intros Hwf Hc. unfold Contrast_enhance, contrast_mean.
  rewrite (stat_mean_ok im Hc). simpl.
  eexists. split; [reflexivity|].
  now rewrite (blend_degenerate im _ factor Hwf).
Qed.

Lemma sharpened_stage_ok (image : Image RGB) :
  well_formed image -> (0 < xsize image)%nat -> (0 < ysize image)%nat ->
  exists sharpened,
    sharpened_stage image = Ok sharpened
    /\ well_formed sharpened
    /\ xsize sharpened = xsize image
    /\ ysize sharpened = ysize image.
Proof.
  intros Hwf Hx Hy.
  destruct (gray_stage_shape image Hwf) as [Hg [Hgx Hgy]].
  assert (Hc : 0 < stat_count (gray_stage image))
    by (apply stat_count_pos; [assumption | rewrite Hgx | rewrite Hgy]; assumption).
  destruct (Contrast_enhance_ok (gray_stage image) 2%Q Hg Hc) as [mean [_ He]].
  unfold sharpened_stage, enhanced_stage. rewrite He. simpl.
  eexists. split; [reflexivity|].
  set (enhanced := mkImage _ _ _).
  assert (Hwe : well_formed enhanced)
    by apply (well_formed_map (blend_pixel 2%Q mean) (gray_stage image) Hg).
  destruct (size_filter SHARPEN enhanced) as [Hsx Hsy].
  repeat split.
  - apply (well_formed_filter SHARPEN enhanced Hwe).
  - apply (well_formed_filter SHARPEN enhanced Hwe).
  - now rewrite Hsx.
  - now rewrite Hsy.
Qed.

Lemma binarize_rows (sharpened : Image Z) :
  binarize sharpened
  = mkImage (xsize sharpened) (ysize sharpened)
            (map (map (level (np_mean (np_array sharpened)))) (rows sharpened)).
Proof.
  unfold binarize, Image_fromarray, astype_uint8, greater_times_255, np_map.
  simpl. f_equal. rewrite map_map. apply map_ext. intros r.
  now rewrite map_map.
Qed.

Lemma level_cases (t : Q) (v : Z) :
  (level t v = 255 /\ (t < inject_Z v)%Q) \/ (level t v = 0 /\ (inject_Z v <= t)%Q).
Proof.
  unfold level, Qlt_bool.
  destruct (Qle_bool (inject_Z v) t) eqn:E; simpl.
  - right. split; [reflexivity | now apply Qle_bool_iff].
  - left. split; [reflexivity|].
    apply Qnot_le_lt. intros H. apply Qle_bool_iff in H. congruence.
Qed.

(** On an image with pixels the whole pipeline returns. *)
Lemma preprocess_image_returns (image : Image RGB) :
  well_formed image -> (0 < xsize image)%nat -> (0 < ysize image)%nat ->
  exists sharpened,
    sharpened_stage image = Ok sharpened
    /\ preprocess_image image = Ok (binarize sharpened).
Proof.
  intros Hwf Hx Hy.
  destruct (sharpened_stage_ok image Hwf Hx Hy) as [s [Hs _]].
  exists s. split; [assumption|].
  unfold preprocess_image. now rewrite Hs.
Qed.

(** C1. For every input image of positive width and height,
    [preprocess_image] returns an image of exactly the input's width and
    height, and every pixel of the returned image is 0 or 255. *)
Theorem preprocess_image_size_and_levels (image : Image RGB) :
  well_formed image -> (0 < xsize image)%nat -> (0 < ysize image)%nat ->
  exists out,
    preprocess_image image = Ok out
    /\ xsize out = xsize image
    /\ ysize out = ysize image
    /\ well_formed out
    /\ forall row v, In row (rows out) -> In v row -> v = 0 \/ v = 255.
Proof.
  intros Hwf Hx Hy.
  destruct (sharpened_stage_ok image Hwf Hx Hy) as [s [Hs [Hws [Hsx Hsy]]]].
  unfold preprocess_image. rewrite Hs. simpl.
  eexists. split; [reflexivity|].
  rewrite binarize_rows. simpl. repeat split; try assumption.
  - apply (well_formed_map _ s Hws).
  - apply (well_formed_map _ s Hws).
  - intros row v Hrow Hv.
    apply in_map_iff in Hrow. destruct Hrow as [r [<- _]].
    apply in_map_iff in Hv. destruct Hv as [p [<- _]].
    destruct (level_cases (np_mean (np_array s)) p) as [[-> _]|[-> _]]; auto.
Qed.

Lemma preprocess_image_size_and_levels_witness :
  exists out,
    preprocess_image img_3x3 = Ok out
    /\ xsize out = 3%nat /\ ysize out = 3%nat
    /\ well_formed out
    /\ forall row v, In row (rows out) -> In v row -> v = 0 \/ v = 255.
Proof.
  apply (preprocess_image_size_and_levels img_3x3).
  - split; [reflexivity | repeat constructor].
  - simpl; lia.
  - simpl; lia.
Defined.

Lemma np_mean_spec (im : Image Z) :
  0 < stat_count im ->
  (np_mean (np_array im) * inject_Z (stat_count im) == inject_Z (stat_sum im))%Q.
Proof.
  intros Hc. unfold np_mean, np_array, stat_count, stat_sum, pixels in *. simpl.
  field. intros H.
  pose proof (proj1 (inject_Z_injective _ 0) H). lia.
Qed.

(** C2. The threshold of the final stage is the global mean of the sharpened
    image; a pixel becomes 255 exactly when it is strictly greater than that
    mean and 0 otherwise, so a pixel equal to the mean becomes 0. *)
Theorem binarize_global_mean (image : Image RGB) :
  well_formed image -> (0 < xsize image)%nat -> (0 < ysize image)%nat ->
  exists sharpened out,
    sharpened_stage image = Ok sharpened
    /\ preprocess_image image = Ok out
    /\ exists threshold : Q,
         (threshold * inject_Z (stat_count sharpened)
          == inject_Z (stat_sum sharpened))%Q
         /\ forall x y, in_bounds sharpened x y ->
              let v := getpixel sharpened x y in
              (getpixel out x y = 255 <-> (threshold < inject_Z v)%Q)
              /\ (getpixel out x y = 0 <-> (inject_Z v <= threshold)%Q)
              /\ ((inject_Z v == threshold)%Q -> getpixel out x y = 0).
Proof.
  intros Hwf Hx Hy.
  destruct (sharpened_stage_ok image Hwf Hx Hy) as [s [Hs [Hws [Hsx Hsy]]]].
  exists s, (binarize s). split; [assumption|]. split.
  { unfold preprocess_image. now rewrite Hs. }
  exists (np_mean (np_array s)). split.
  { apply np_mean_spec. apply stat_count_pos; [assumption | lia | lia]. }
  intros x y Hb v. rewrite binarize_rows, (getpixel_map _ s x y Hws Hb).
  fold v.
  destruct (level_cases (np_mean (np_array s)) v) as [[-> Hlt]|[-> Hle]].
  - repeat split; intros H; try reflexivity; try assumption; try discriminate.
    + exfalso. exact (Qlt_not_le _ _ Hlt H).
    + exfalso. rewrite H in Hlt. exact (Qlt_irrefl _ Hlt).
  - repeat split; intros H; try reflexivity; try assumption; try discriminate.
    exfalso. exact (Qle_not_lt _ _ Hle H).
Qed.

(** ** Rounding and clipping *)

Lemma Qfloor_between (q : Q) (z : Z) :
  (inject_Z z <= q)%Q -> (q < inject_Z (z + 1))%Q -> Qfloor q = z.
Proof.
  intros Hlo Hhi.
  pose proof (Qfloor_le q) as H1. pose proof (Qlt_floor q) as H2.
  assert (Ha : (inject_Z (Qfloor q) < inject_Z (z + 1))%Q)
    by (eapply Qle_lt_trans; eassumption).
  assert (Hb : (inject_Z z < inject_Z (Qfloor q + 1))%Q)
    by (eapply Qle_lt_trans; eassumption).
  rewrite <- Zlt_Qlt in Ha, Hb. lia.
Qed.


Lemma Qtrunc_comp (a b : Q) : (a == b)%Q -> Qtrunc a = Qtrunc b.
Proof.
  intros H. unfold Qtrunc.
  rewrite (Qleb_comp 0%Q 0%Q (Qeq_refl 0%Q) a b H), (Qfloor_comp a b H), (Qceiling_comp a b H).
  reflexivity.
Qed.

Lemma Qtrunc_Z (z : Z) : Qtrunc (inject_Z z) = z.
Proof.
  unfold Qtrunc. destruct (Qle_bool 0 (inject_Z z));
    [apply Qfloor_Z | apply Qceiling_Z].
Qed.

Lemma Qle_bool_Z (a b : Z) : Qle_bool (inject_Z a) (inject_Z b) = (a <=? b).
Proof.
  apply eq_true_iff_eq. rewrite Qle_bool_iff, <- Zle_Qle. symmetry. apply Z.leb_le.
Qed.

Lemma clip8_comp (a b : Q) : (a == b)%Q -> clip8 a = clip8 b.
Proof.
  intros H. unfold clip8.
  rewrite (Qleb_comp a b H 0%Q 0%Q (Qeq_refl 0%Q)),
    (Qleb_comp 255%Q 255%Q (Qeq_refl 255%Q) a b H),
    (Qfloor_comp a b H).
  reflexivity.
Qed.


(** With factor 2 the blend is the integer stretch around [mean], clipped. *)
Lemma blend_pixel_2 (mean v : Z) :
  blend_pixel 2 mean v = clamp 0 255 (mean + (v - mean) * 2).
Proof.
  unfold blend_pixel.
  change (Qeq_bool 2 0) with false. change (Qeq_bool 2 1) with false.
  change (Qle_bool 0 2 && Qle_bool 2 1) with false. cbv iota.
  assert (Ht : (inject_Z mean + 2 * (inject_Z v - inject_Z mean)
                == inject_Z (mean + (v - mean) * 2))%Q).
  { rewrite inject_Z_plus, inject_Z_mult.
    unfold Z.sub. rewrite inject_Z_plus, inject_Z_opp.
    change (inject_Z 2) with 2%Q. ring. }
  rewrite (Qleb_comp _ _ Ht 0%Q 0%Q (Qeq_refl 0%Q)),
    (Qleb_comp 255%Q 255%Q (Qeq_refl 255%Q) _ _ Ht),
    (Qtrunc_comp _ _ Ht), Qtrunc_Z.
  change 0%Q with (inject_Z 0). change 255%Q with (inject_Z 255).
  rewrite !Qle_bool_Z. unfold clamp.
  destruct (Z.leb_spec (mean + (v - mean) * 2) 0);
    destruct (Z.leb_spec 255 (mean + (v - mean) * 2)); lia.
Qed.

(** ** The sharpening filter, pixel by pixel *)

Lemma length_row (im : Image Z) (y : nat) :
  well_formed im -> (y < ysize im)%nat -> length (nth y (rows im) []) = xsize im.
Proof.
  intros [Hh Hw] Hy. rewrite Forall_forall in Hw. apply Hw, nth_In. lia.
Qed.

Lemma small_image_is_border (im : Image Z) (x y : nat) :
  in_bounds im x y ->
  (xsize im <? 3)%nat || (ysize im <? 3)%nat = true ->
  on_border im x y = true.
Proof.
  intros [Hx Hy] Hs. unfold on_border.
  apply orb_true_iff in Hs. rewrite !orb_true_iff, !Nat.eqb_eq.
  destruct Hs as [Hs|Hs]; apply Nat.ltb_lt in Hs; lia.
Qed.

Lemma getpixel_filter (k : Kernel) (im : Image Z) (x y : nat) :
  well_formed im -> in_bounds im x y ->
  getpixel (Image_filter k im) x y
  = if on_border im x y then getpixel im x y
    else clip8 (filter_sum k im x y).
Proof.
  intros Hwf Hb. unfold Image_filter.
  destruct ((xsize im <? 3)%nat || (ysize im <? 3)%nat) eqn:Hs.
  - now rewrite (small_image_is_border im x y Hb Hs).
  - destruct Hb as [Hx Hy]. pose proof (length_row im y Hwf Hy) as Hrow.
    destruct Hwf as [Hh Hw].
    unfold filter3x3, getpixel at 1. simpl.
    rewrite (nth_mapi _ [] [] (rows im) y) by lia.
    rewrite (nth_mapi _ 0 0 _ x) by lia.
    reflexivity.
Qed.




Lemma filter_sum_SHARPEN (im : Image Z) (x y : nat) :
  (filter_sum SHARPEN im x y == sharpen_sum im x y)%Q.
Proof.
  unfold filter_sum, kernel1x3, kw, sharpen_sum. simpl. field.
Qed.


(** ** The contrast stage *)

Lemma contrast_mean_rounds (im : Image Z) :
  0 < stat_count im -> 0 <= stat_sum im ->
  contrast_mean im
  = Ok ((2 * stat_sum im + stat_count im) / (2 * stat_count im)).
Proof.
  intros Hc Hs. unfold contrast_mean. rewrite (stat_mean_ok im Hc). simpl.
  f_equal.
  set (s := stat_sum im) in *. set (n := stat_count im) in *.
  assert (Hq : (inject_Z s / inject_Z n + (1 # 2)
                == inject_Z (2 * s + n) / inject_Z (2 * n))%Q).
  { rewrite inject_Z_plus, !inject_Z_mult. change (inject_Z 2) with 2%Q.
    field. intros H. pose proof (proj1 (inject_Z_injective _ 0) H). lia. }
  rewrite (Qtrunc_comp _ _ Hq). unfold Qtrunc.
  destruct (Qle_bool 0 (inject_Z (2 * s + n) / inject_Z (2 * n))) eqn:E.
  - symmetry. apply Zdiv_Qdiv.
  - exfalso. apply not_true_iff_false in E. apply E. apply Qle_bool_iff.
    eapply Qle_trans; [|apply Qfloor_le].
    rewrite <- Zdiv_Qdiv. change 0%Q with (inject_Z 0). rewrite <- Zle_Qle.
    apply Z.div_pos; lia.
Qed.

Lemma Zsum_nonneg (l : list Z) : Forall (fun v => 0 <= v) l -> 0 <= Zsum l.
Proof.
  induction 1 as [|a t Ha _ IH]; [reflexivity|].
  change (Zsum (a :: t)) with (a + Zsum t). lia.
Qed.

Lemma rgb2l_range (p : RGB) :
  0 <= red p <= 255 -> 0 <= green p <= 255 -> 0 <= blue p <= 255 ->
  0 <= rgb2l p <= 255.
Proof.
  intros Hr Hg Hb. unfold rgb2l. rewrite Z.shiftr_div_pow2 by lia.
  change (2 ^ 16) with 65536. split.
  - apply Z.div_pos; lia.
  - apply Z.lt_succ_r. apply Z.div_lt_upper_bound; lia.
Qed.

Lemma gray_sum_nonneg (image : Image RGB) :
  eight_bit image -> 0 <= stat_sum (gray_stage image).
Proof.
  intros H8. unfold stat_sum, pixels, gray_stage, convert_L, map_image. simpl.
  apply Zsum_nonneg. apply Forall_concat. apply Forall_map.
  eapply Forall_impl; [|exact H8]. intros r Hr. apply Forall_map.
  eapply Forall_impl; [|exact Hr]. simpl. intros p [Hr' [Hg Hb]].
  now apply rgb2l_range.
Qed.

Lemma enhanced_stage_ok (image : Image RGB) :
  well_formed image -> (0 < xsize image)%nat -> (0 < ysize image)%nat ->
  exists mean,
    contrast_mean (gray_stage image) = Ok mean
    /\ enhanced_stage image
       = Ok (mkImage (xsize image) (ysize image)
                     (map (map (blend_pixel 2 mean)) (rows (gray_stage image)))).
Proof.
  intros Hwf Hx Hy.
  destruct (gray_stage_shape image Hwf) as [Hg [Hgx Hgy]].
  assert (Hc : 0 < stat_count (gray_stage image))
    by (apply stat_count_pos; [assumption | rewrite Hgx | rewrite Hgy]; assumption).
  exact (Contrast_enhance_ok (gray_stage image) 2%Q Hg Hc).
Qed.

(** X25. In integers: the contrast stage maps every luminance value [v] of
    the grayscale image to [clamp(m + (v - m) * 2, 0, 255)], where [m] is the
    mean luminance rounded to the nearest integer, halves upwards. *)
Theorem contrast_stretch_rounded_mean (image : Image RGB) :
  well_formed image -> (0 < xsize image)%nat -> (0 < ysize image)%nat ->
  eight_bit image ->
  let gray := gray_stage image in
  exists mean enhanced,
    contrast_mean gray = Ok mean
    /\ 2 * stat_count gray * mean <= 2 * stat_sum gray + stat_count gray
       < 2 * stat_count gray * (mean + 1)
    /\ enhanced_stage image = Ok enhanced
    /\ xsize enhanced = xsize image /\ ysize enhanced = ysize image
    /\ forall x y, in_bounds gray x y ->
         getpixel enhanced x y
         = clamp 0 255 (mean + (getpixel gray x y - mean) * 2).
Proof.
  intros Hwf Hx Hy H8 gray.
  destruct (gray_stage_shape image Hwf) as [Hg [Hgx Hgy]]. fold gray in Hg, Hgx, Hgy.
  assert (Hc : 0 < stat_count gray)
    by (apply stat_count_pos; [assumption | rewrite Hgx | rewrite Hgy]; assumption).
  pose proof (gray_sum_nonneg image H8) as Hs. fold gray in Hs.
  destruct (enhanced_stage_ok image Hwf Hx Hy) as [mean [Hm He]]. fold gray in Hm, He.
  exists mean. eexists. split; [exact Hm|].
  assert (Hr : mean = (2 * stat_sum gray + stat_count gray) / (2 * stat_count gray))
    by (rewrite (contrast_mean_rounds gray Hc Hs) in Hm; congruence).
  split.
  { rewrite Hr.
    pose proof (Z.mul_div_le (2 * stat_sum gray + stat_count gray)
                             (2 * stat_count gray) ltac:(lia)).
    pose proof (Z.mul_succ_div_gt (2 * stat_sum gray + stat_count gray)
                                  (2 * stat_count gray) ltac:(lia)).
    lia. }
  split; [exact He|]. simpl. split; [reflexivity|]. split; [reflexivity|].
  intros x y Hb.
  change (getpixel (mkImage (xsize gray) (ysize gray)
                            (map (map (blend_pixel 2 mean)) (rows gray))) x y
          = clamp 0 255 (mean + (getpixel gray x y - mean) * 2)).
  rewrite (getpixel_map (blend_pixel 2 mean) gray x y Hg Hb).
  apply blend_pixel_2.
Qed.

Lemma contrast_stretch_rounded_mean_witness :
  exists mean enhanced,
    contrast_mean (gray_stage img_2x1) = Ok mean
    /\ 2 * stat_count (gray_stage img_2x1) * mean
       <= 2 * stat_sum (gray_stage img_2x1) + stat_count (gray_stage img_2x1)
       < 2 * stat_count (gray_stage img_2x1) * (mean + 1)
    /\ enhanced_stage img_2x1 = Ok enhanced
    /\ xsize enhanced = 2%nat /\ ysize enhanced = 1%nat
    /\ forall x y, in_bounds (gray_stage img_2x1) x y ->
         getpixel enhanced x y
         = clamp 0 255 (mean + (getpixel (gray_stage img_2x1) x y - mean) * 2).
Proof.
  apply (contrast_stretch_rounded_mean img_2x1).
  - split; [reflexivity | repeat constructor].
  - simpl; lia.
  - simpl; lia.
  - repeat constructor; simpl; lia.
Defined.

(** ** The contrast stage against the real-valued formula *)

Lemma Qceiling_between (q : Q) (z : Z) :
  (inject_Z z - 1 < q)%Q -> (q <= inject_Z z)%Q -> Qceiling q = z.
Proof.
  intros Hlo Hhi. unfold Qceiling.
  rewrite (Qfloor_between (- q) (- z)); [lia | |].
  - rewrite inject_Z_opp. lra.
  - rewrite inject_Z_plus, inject_Z_opp. change (inject_Z 1) with 1%Q. lra.
Qed.

(** Stretching around the rounded mean [m] is stretching around the exact
    mean [mu] and rounding the result to the nearest integer, halves down. *)
Lemma stretch_nearest (mu : Q) (m v : Z) :
  (inject_Z m - (1 # 2) <= mu)%Q -> (mu < inject_Z m + (1 # 2))%Q ->
  clamp 0 255 (m + (v - m) * 2) = Qceiling (stretch mu v - (1 # 2)).
Proof.
  intros Hlo Hhi. set (z := m + (v - m) * 2).
  assert (Hz : inject_Z z = (inject_Z m + (inject_Z v + - inject_Z m) * 2)%Q).
  { unfold z, Z.sub.
    now rewrite inject_Z_plus, inject_Z_mult, inject_Z_plus, inject_Z_opp. }
  unfold stretch, Qclamp. set (q := (mu + (inject_Z v - mu) * 2)%Q).
  assert (Hq : (inject_Z z - (1 # 2) < q /\ q <= inject_Z z + (1 # 2))%Q)
    by (rewrite Hz; unfold q; split; lra).
  destruct Hq as [Hq1 Hq2]. symmetry.
  destruct (Qle_bool q 0) eqn:E0.
  - apply Qle_bool_iff in E0.
    assert (Hz0 : (inject_Z z < inject_Z 1)%Q)
      by (change (inject_Z 1) with 1%Q; lra).
    rewrite <- Zlt_Qlt in Hz0.
    replace (clamp 0 255 z) with 0 by (unfold clamp; lia).
    apply Qceiling_between; change (inject_Z 0) with 0%Q; lra.
  - assert (H0 : (0 < q)%Q).
    { apply Qnot_le_lt. intros H. apply Qle_bool_iff in H. congruence. }
    destruct (Qle_bool 255 q) eqn:E255.
    + apply Qle_bool_iff in E255.
      assert (Hz255 : (inject_Z 254 < inject_Z z)%Q)
        by (change (inject_Z 254) with 254%Q; lra).
      rewrite <- Zlt_Qlt in Hz255.
      replace (clamp 0 255 z) with 255 by (unfold clamp; lia).
      apply Qceiling_between; change (inject_Z 255) with 255%Q; lra.
    + assert (H255 : (q < 255)%Q).
      { apply Qnot_le_lt. intros H. apply Qle_bool_iff in H. congruence. }
      assert (Ha : (inject_Z (-1) < inject_Z z)%Q)
        by (change (inject_Z (-1)) with (-1)%Q; lra).
      assert (Hb : (inject_Z z < inject_Z 256)%Q)
        by (change (inject_Z 256) with 256%Q; lra).
      rewrite <- Zlt_Qlt in Ha, Hb.
      replace (clamp 0 255 z) with z by (unfold clamp; lia).
      apply Qceiling_between; lra.
Qed.

Lemma rounded_mean_brackets (s n : Z) :
  0 < n -> 0 <= s ->
  (inject_Z ((2 * s + n) / (2 * n)) - (1 # 2) <= inject_Z s / inject_Z n
   /\ inject_Z s / inject_Z n < inject_Z ((2 * s + n) / (2 * n)) + (1 # 2))%Q.
Proof.
  intros Hn Hs. set (m := (2 * s + n) / (2 * n)).
  pose proof (Z.mul_div_le (2 * s + n) (2 * n) ltac:(lia)) as Hlo.
  pose proof (Z.mul_succ_div_gt (2 * s + n) (2 * n) ltac:(lia)) as Hhi.
  fold m in Hlo, Hhi.
  assert (HN : (0 < inject_Z n)%Q)
    by (change 0%Q with (inject_Z 0); now rewrite <- Zlt_Qlt).
  rewrite Zle_Qle in Hlo. rewrite Zlt_Qlt in Hhi. unfold Z.succ in Hhi.
  rewrite !inject_Z_mult, !inject_Z_plus, !inject_Z_mult in *.
  change (inject_Z 2) with 2%Q in *. change (inject_Z 1) with 1%Q in *.
  split.
  - apply Qle_shift_div_l; [exact HN | nra].
  - apply Qlt_shift_div_r; [exact HN | nra].
Qed.

(** C4. The contrast stage maps every luminance value [v] of the grayscale
    image to [clamp(mean + (v - mean) * 2.0, 0, 255)], [mean] being the mean
    luminance of the grayscale image; the pixel written is that value
    rounded to the nearest integer (halves downwards), hence within 1/2 of
    it. *)
Theorem contrast_stretch_formula (image : Image RGB) :
  well_formed image -> (0 < xsize image)%nat -> (0 < ysize image)%nat ->
  eight_bit image ->
  let gray := gray_stage image in
  exists enhanced,
    enhanced_stage image = Ok enhanced
    /\ xsize enhanced = xsize image /\ ysize enhanced = ysize image
    /\ forall x y, in_bounds gray x y ->
         let ideal := stretch (mean_luminance gray) (getpixel gray x y) in
         getpixel enhanced x y = Qceiling (ideal - (1 # 2))
         /\ (inject_Z (getpixel enhanced x y) - (1 # 2) <= ideal
             /\ ideal <= inject_Z (getpixel enhanced x y) + (1 # 2))%Q.
Proof.
  intros Hwf Hx Hy H8 gray.
  destruct (gray_stage_shape image Hwf) as [Hg [Hgx Hgy]]. fold gray in Hg, Hgx, Hgy.
  assert (Hc : 0 < stat_count gray)
    by (apply stat_count_pos; [assumption | rewrite Hgx | rewrite Hgy]; assumption).
  pose proof (gray_sum_nonneg image H8) as Hs. fold gray in Hs.
  destruct (enhanced_stage_ok image Hwf Hx Hy) as [mean [Hm He]]. fold gray in Hm, He.
  assert (Hr : mean = (2 * stat_sum gray + stat_count gray) / (2 * stat_count gray))
    by (rewrite (contrast_mean_rounds gray Hc Hs) in Hm; congruence).
  destruct (rounded_mean_brackets (stat_sum gray) (stat_count gray) Hc Hs)
    as [Hlo Hhi].
  rewrite <- Hr in Hlo, Hhi. fold (mean_luminance gray) in Hlo, Hhi.
  eexists. split; [exact He|]. split; [reflexivity|]. split; [reflexivity|].
  intros x y Hb ideal.
  assert (Hpix : getpixel (mkImage (xsize image) (ysize image)
                             (map (map (blend_pixel 2 mean)) (rows gray))) x y
                 = Qceiling (ideal - (1 # 2))).
  { change (getpixel (mkImage (xsize gray) (ysize gray)
                              (map (map (blend_pixel 2 mean)) (rows gray))) x y
            = Qceiling (ideal - (1 # 2))).
    rewrite (getpixel_map (blend_pixel 2 mean) gray x y Hg Hb), blend_pixel_2.
    now apply stretch_nearest. }
  split; [exact Hpix|]. rewrite Hpix.
  pose proof (Qle_ceiling (ideal - (1 # 2))) as H1.
  pose proof (Qceiling_lt (ideal - (1 # 2))) as H2.
  unfold Z.sub in H2. rewrite inject_Z_plus in H2.
  change (inject_Z (- (1))) with (-1)%Q in H2. split; lra.
Qed.

Lemma contrast_stretch_formula_witness :
  exists enhanced,
    enhanced_stage img_2x1 = Ok enhanced
    /\ xsize enhanced = 2%nat /\ ysize enhanced = 1%nat
    /\ forall x y, in_bounds (gray_stage img_2x1) x y ->
         let ideal := stretch (mean_luminance (gray_stage img_2x1))
                              (getpixel (gray_stage img_2x1) x y) in
         getpixel enhanced x y = Qceiling (ideal - (1 # 2))
         /\ (inject_Z (getpixel enhanced x y) - (1 # 2) <= ideal
             /\ ideal <= inject_Z (getpixel enhanced x y) + (1 # 2))%Q.
Proof.
  apply (contrast_stretch_formula img_2x1).
  - split; [reflexivity | repeat constructor].
  - simpl; lia.
  - simpl; lia.
  - repeat constructor; simpl; lia.
Defined.

(** The rounding is to the nearest integer with halves downwards: rounding
    halves upwards would give 2 instead of 1 on [[0, 1]], truncating would
    give 1 instead of 2 on [[0, 0, 0, 1]]. *)
Example contrast_formula_rounded_up :
  enhanced_stage img_2x1 = Ok (mkImage 2 1 [[0; 1]])
  /\ Qfloor (stretch (mean_luminance (gray_stage img_2x1)) 1 + (1 # 2)) = 2.
Proof. split; reflexivity. Qed.

Example contrast_formula_truncated :
  enhanced_stage img_4x1 = Ok (mkImage 4 1 [[0; 0; 0; 2]])
  /\ Qfloor (stretch (mean_luminance (gray_stage img_4x1)) 1) = 1.
Proof. split; reflexivity. Qed.



Lemma binarize_global_mean_witness :
  exists sharpened out,
    sharpened_stage img_3x3 = Ok sharpened
    /\ preprocess_image img_3x3 = Ok out
    /\ exists threshold : Q,
         (threshold * inject_Z (stat_count sharpened)
          == inject_Z (stat_sum sharpened))%Q
         /\ forall x y, in_bounds sharpened x y ->
              let v := getpixel sharpened x y in
              (getpixel out x y = 255 <-> (threshold < inject_Z v)%Q)
              /\ (getpixel out x y = 0 <-> (inject_Z v <= threshold)%Q)
              /\ ((inject_Z v == threshold)%Q -> getpixel out x y = 0).
Proof.
  apply (binarize_global_mean img_3x3).
  - split; [reflexivity | repeat constructor].
  - simpl; lia.
  - simpl; lia.
Defined.

(** C3 (as the code has it). The sharpening stage applies, to each interior
    pixel, the 3x3 kernel of [ImageFilter.SHARPEN]: weight 32/16 at the
    centre and -2/16 on each of the eight neighbours, diagonals included;
    border pixels are left unfiltered and the output has the size of the
    input. *)
Theorem sharpen_stage_kernel (image : Image RGB) :
  well_formed image -> (0 < xsize image)%nat -> (0 < ysize image)%nat ->
  exists enhanced sharpened,
    enhanced_stage image = Ok enhanced
    /\ sharpened_stage image = Ok sharpened
    /\ xsize sharpened = xsize enhanced /\ ysize sharpened = ysize enhanced
    /\ well_formed sharpened
    /\ forall x y, in_bounds enhanced x y ->
         getpixel sharpened x y
         = if on_border enhanced x y then getpixel enhanced x y
           else clip8 (sharpen_sum enhanced x y).
Proof.
  intros Hwf Hx Hy.
  destruct (gray_stage_shape image Hwf) as [Hwg _].
  destruct (enhanced_stage_ok image Hwf Hx Hy) as [mean [_ He]].
  set (enhanced := mkImage _ _ _) in He.
  assert (Hwe : well_formed enhanced)
    by apply (well_formed_map (blend_pixel 2 mean) (gray_stage image) Hwg).
  exists enhanced, (Image_filter SHARPEN enhanced).
  destruct (size_filter SHARPEN enhanced) as [Hsx Hsy].
  repeat split; try assumption.
  - unfold sharpened_stage. now rewrite He.
  - now apply well_formed_filter.
  - now apply well_formed_filter.
  - intros x y Hb. rewrite (getpixel_filter SHARPEN enhanced x y Hwe Hb).
    destruct (on_border enhanced x y); [reflexivity|].
    apply clip8_comp, filter_sum_SHARPEN.
Qed.

Lemma sharpen_stage_kernel_witness :
  exists enhanced sharpened,
    enhanced_stage img_3x3 = Ok enhanced
    /\ sharpened_stage img_3x3 = Ok sharpened
    /\ xsize sharpened = xsize enhanced /\ ysize sharpened = ysize enhanced
    /\ well_formed sharpened
    /\ forall x y, in_bounds enhanced x y ->
         getpixel sharpened x y
         = if on_border enhanced x y then getpixel enhanced x y
           else clip8 (sharpen_sum enhanced x y).
Proof.
  apply (sharpen_stage_kernel img_3x3).
  - split; [reflexivity | repeat constructor].
  - simpl; lia.
  - simpl; lia.
Defined.

(** The enhanced image of [img_3x3] is 50 everywhere but 60 at the centre:
    the cross-shaped kernel gives 5*60 - 4*50 = 100 there, the code 70. *)
Lemma sharpen_as_specified_fails : ~ sharpen_as_specified img_3x3.
Proof.
  intros H.
  specialize (H (mkImage 3 3 [[50; 50; 50]; [50; 60; 50]; [50; 50; 50]])
                (mkImage 3 3 [[50; 50; 50]; [50; 70; 50]; [50; 50; 50]])
                eq_refl eq_refl 1%nat 1%nat).
  assert (Hb : in_bounds (mkImage 3 3 [[50; 50; 50]; [50; 60; 50]; [50; 50; 50]]) 1 1)
    by (split; simpl; lia).
  specialize (H Hb eq_refl). vm_compute in H. discriminate H.
Qed.

(** ** Strings *)

Lemma lstrip_whitespace (s : string) :
  whitespace_only s = true -> lstrip s = EmptyString.
Proof.
  induction s as [|c s IH]; simpl; [reflexivity|].
  intros H. apply andb_true_iff in H. destruct H as [Hc Hs].
  rewrite Hc. now apply IH.
Qed.

(** [text.strip()] is falsy exactly for the empty and the all-blank texts. *)
Lemma truthy_strip (s : string) : truthy (strip s) = negb (whitespace_only s).
Proof.
  unfold strip. induction s as [|c s IH]; simpl; [reflexivity|].
  destruct (is_space c) eqn:Hc; simpl; [exact IH|].
  rewrite Hc. destruct (rstrip s); reflexivity.
Qed.

(** ** The overlay *)

(** C6. A selection whose normalized rectangle is at most 10 pixels wide or
    at most 10 pixels high is discarded on release: [capture_region] is not
    called, the main window is left as it was, and no call at all leaves the
    handler, so neither the preprocessor nor an OCR backend runs for it. *)
Theorem small_selection_discarded
    (crop : Image RGB -> QRect -> Image RGB)
    (s : SnippingWidget) (parent : MainWindow) :
  let rect := normalized (QRect_of (begin s) (end_ s)) in
  width rect <= 10 \/ height rect <= 10 ->
  exists s',
    mouseReleaseEvent crop s parent = (s', parent, [])
    /\ is_selecting s' = false /\ shown s' = false /\ closed s' = true.
Proof.
  intros rect Hsmall. unfold mouseReleaseEvent. fold rect.
  assert (Hc : (10 <? width rect) && (10 <? height rect) = false).
  { apply andb_false_iff. rewrite !Z.ltb_ge. exact Hsmall. }
  rewrite Hc. eexists. repeat split.
Qed.

Lemma small_selection_discarded_witness :
  exists s',
    mouseReleaseEvent (fun shot _ => shot) click MainWindow_init
    = (s', MainWindow_init, [])
    /\ is_selecting s' = false /\ shown s' = false /\ closed s' = true.
Proof.
  apply (small_selection_discarded (fun shot _ => shot) click MainWindow_init).
  left. vm_compute. discriminate.
Defined.

(** The guard is exact: a larger selection does reach [capture_region]. *)
Lemma large_selection_captured
    (crop : Image RGB -> QRect -> Image RGB)
    (s : SnippingWidget) (parent : MainWindow) :
  let rect := normalized (QRect_of (begin s) (end_ s)) in
  10 < width rect -> 10 < height rect ->
  In (CaptureRegion rect) (snd (mouseReleaseEvent crop s parent)).
Proof.
  intros rect Hw Hh. unfold mouseReleaseEvent. fold rect.
  apply Z.ltb_lt in Hw, Hh. rewrite Hw, Hh. simpl.
  destruct (capture_region crop s parent rect). simpl. now left.
Qed.

(** ** [extract_text] *)

(** C9. Without a captured image [extract_text] returns at once: the window
    (displayed text, stored text, stored image, every button) is unchanged
    and nothing is called. *)
Theorem extract_text_without_image (ocr : OCR) (w : MainWindow) :
  captured_image w = None -> extract_text ocr w = (w, []).
Proof. intros H. unfold extract_text. now rewrite H. Qed.

Lemma extract_text_without_image_witness :
  extract_text (ocr_returning "HELLO") MainWindow_init = (MainWindow_init, []).
Proof.
  apply (extract_text_without_image (ocr_returning "HELLO") MainWindow_init).
  reflexivity.
Defined.

(** C7. With the Cloud API entry selected, [extract_text] calls no OCR
    backend (and nothing that could use the network); on a captured image it
    shows and stores the fixed text "Cloud API not implemented in this demo". *)
Theorem cloud_api_not_implemented (ocr : OCR) (w : MainWindow) :
  ocr_combo w = 2%nat ->
  Forall (fun c => is_backend_call c = false) (snd (extract_text ocr w))
  /\ forall image,
       captured_image w = Some image ->
       well_formed image -> (0 < xsize image)%nat -> (0 < ysize image)%nat ->
       fst (recognize ocr w image) = Ok "Cloud API not implemented in this demo"%string
       /\ text_label (fst (extract_text ocr w))
          = "Cloud API not implemented in this demo"%string
       /\ extracted_text (fst (extract_text ocr w))
          = Some "Cloud API not implemented in this demo"%string
       /\ snd (extract_text ocr w) = [ProcessEvents; Preprocess image].
Proof.
  intros Hsel.
  assert (Hrec : forall t image,
             recognize ocr (set_text_label t w) image
             = match preprocess_image image with
               | Raise e => (Raise e, [Preprocess image])
               | Ok _ => (Ok "Cloud API not implemented in this demo"%string,
                          [Preprocess image])
               end).
  { intros t image. unfold recognize, currentText. simpl ocr_combo.
    rewrite Hsel. destruct (preprocess_image image); reflexivity. }
  split.
  - unfold extract_text. destruct (captured_image w) as [image|]; [|constructor].
    rewrite Hrec. destruct (preprocess_image image); simpl; repeat constructor.
  - intros image Himg Hwf Hx Hy.
    destruct (preprocess_image_returns image Hwf Hx Hy) as [sharpened [_ Hout]].
    unfold extract_text. rewrite Himg, Hrec.
    unfold recognize, currentText. rewrite Hsel, Hout. simpl. repeat split.
Qed.

Lemma cloud_api_not_implemented_witness :
  Forall (fun c => is_backend_call c = false)
         (snd (extract_text (ocr_returning "HELLO") cloud_window))
  /\ forall image,
       captured_image cloud_window = Some image ->
       well_formed image -> (0 < xsize image)%nat -> (0 < ysize image)%nat ->
       fst (recognize (ocr_returning "HELLO") cloud_window image)
       = Ok "Cloud API not implemented in this demo"%string
       /\ text_label (fst (extract_text (ocr_returning "HELLO") cloud_window))
          = "Cloud API not implemented in this demo"%string
       /\ extracted_text (fst (extract_text (ocr_returning "HELLO") cloud_window))
          = Some "Cloud API not implemented in this demo"%string
       /\ snd (extract_text (ocr_returning "HELLO") cloud_window)
          = [ProcessEvents; Preprocess image].
Proof.
  apply (cloud_api_not_implemented (ocr_returning "HELLO") cloud_window).
  reflexivity.
Defined.

Lemma recognize_set_text_label (ocr : OCR) (t : string) (w : MainWindow)
    (image : Image RGB) :
  recognize ocr (set_text_label t w) image = recognize ocr w image.
Proof. reflexivity. Qed.

(** C10. When recognition succeeds with a text that is empty or only white
    space, [extract_text] shows "No text detected in image" and disables the
    copy button, and the stored text is left as it was: a text stored by an
    earlier extraction is still there while copy is disabled. *)
Theorem no_text_detected (ocr : OCR) (w : MainWindow) (image : Image RGB)
    (text : string) :
  captured_image w = Some image ->
  fst (recognize ocr w image) = Ok text ->
  whitespace_only text = true ->
  let w' := fst (extract_text ocr w) in
  text_label w' = "No text detected in image"%string
  /\ copy_btn w' = false
  /\ extracted_text w' = extracted_text w
  /\ captured_image w' = captured_image w
  /\ forall old, extracted_text w = Some old ->
       extracted_text w' = Some old /\ copy_btn w' = false.
Proof.
  intros Himg Hrec Hblank. unfold extract_text.
  rewrite Himg, recognize_set_text_label.
  destruct (recognize ocr w image) as [r calls]. simpl in Hrec. subst r.
  rewrite truthy_strip, Hblank. simpl. repeat split; auto.
Qed.

Lemma no_text_detected_witness :
  let w := fst (extract_text (ocr_returning "HELLO")
                  (process_capture img_3x3 MainWindow_init)) in
  let w' := fst (extract_text (ocr_returning "  ") w) in
  text_label w' = "No text detected in image"%string
  /\ copy_btn w' = false
  /\ extracted_text w' = extracted_text w
  /\ captured_image w' = captured_image w
  /\ forall old, extracted_text w = Some old ->
       extracted_text w' = Some old /\ copy_btn w' = false.
Proof.
  apply (no_text_detected (ocr_returning "  ")
           (fst (extract_text (ocr_returning "HELLO")
                   (process_capture img_3x3 MainWindow_init)))
           img_3x3 "  ").
  - reflexivity.
  - reflexivity.
  - reflexivity.
Defined.





(** * Further properties of the handlers *)

(** ** Selection geometry *)

Lemma width_normalized (r : QRect) :
  width (normalized r)
  = if x2 r <? x1 r - 1 then x1 r - x2 r + 1 else x2 r - x1 r + 1.
Proof.
  unfold normalized, width.
  destruct (x2 r <? x1 r - 1); destruct (y2 r <? y1 r - 1); reflexivity.
Qed.

Lemma height_normalized (r : QRect) :
  height (normalized r)
  = if y2 r <? y1 r - 1 then y1 r - y2 r + 1 else y2 r - y1 r + 1.
Proof.
  unfold normalized, height.
  destruct (x2 r <? x1 r - 1); destruct (y2 r <? y1 r - 1); reflexivity.
Qed.

(** The size guard of [mouseReleaseEvent], read on the pointer positions. *)
Lemma guard_iff_moved (b e : QPoint) :
  (10 <? width (normalized (QRect_of b e)))
  && (10 <? height (normalized (QRect_of b e))) = true
  <-> 10 <= Z.abs (px e - px b) /\ 10 <= Z.abs (py e - py b).
Proof.
  rewrite andb_true_iff, !Z.ltb_lt, width_normalized, height_normalized.
  simpl.
  destruct (Z.ltb_spec (px e) (px b - 1)); destruct (Z.ltb_spec (py e) (py b - 1)); lia.
Qed.

(** X1. Releasing the pointer reaches [capture_region] exactly when the
    selection's end is at least 10 pixels away from its beginning both
    horizontally and vertically, whatever the direction of the drag. *)
Theorem release_captures_iff_moved
    (crop : Image RGB -> QRect -> Image RGB)
    (s : SnippingWidget) (parent : MainWindow) :
  In (CaptureRegion (normalized (QRect_of (begin s) (end_ s))))
     (snd (mouseReleaseEvent crop s parent))
  <-> 10 <= Z.abs (px (end_ s) - px (begin s))
      /\ 10 <= Z.abs (py (end_ s) - py (begin s)).
Proof.
  rewrite <- guard_iff_moved. unfold mouseReleaseEvent.
  destruct ((10 <? width _) && (10 <? height _)).
  - destruct (capture_region crop s parent _). simpl. split; auto.
  - simpl. split; [tauto | discriminate].
Qed.

(** X2. A press followed by a release with no move in between is always
    discarded: the main window is untouched and nothing is called. *)
Theorem click_never_captures
    (crop : Image RGB -> QRect -> Image RGB)
    (pos : QPoint) (s : SnippingWidget) (parent : MainWindow) :
  snd (fst (mouseReleaseEvent crop (mousePressEvent pos s) parent)) = parent
  /\ snd (mouseReleaseEvent crop (mousePressEvent pos s) parent) = [].
Proof.
  unfold mouseReleaseEvent.
  assert (H : (10 <? width (normalized (QRect_of (begin (mousePressEvent pos s))
                                                  (end_ (mousePressEvent pos s)))))
              && (10 <? height (normalized (QRect_of (begin (mousePressEvent pos s))
                                                     (end_ (mousePressEvent pos s)))))
              = false).
  { apply not_true_iff_false. rewrite guard_iff_moved. simpl. lia. }
  rewrite H. split; reflexivity.
Qed.

Lemma last_cons {A : Type} (l : list A) :
  forall a d, last (a :: l) d = last l a.
Proof.
  induction l as [|b t IH]; intros a d; [reflexivity|].
  change (last (a :: b :: t) d) with (last (b :: t) d).
  now rewrite (IH b d), (IH b a).
Qed.

Lemma drag_moves (moves : list QPoint) :
  forall s, is_selecting s = true ->
    let s' := fold_left (fun s' pos => mouseMoveEvent pos s') moves s in
    begin s' = begin s /\ end_ s' = last moves (end_ s)
    /\ is_selecting s' = true /\ screenshot s' = screenshot s.
Proof.
  induction moves as [|p t IH]; intros s Hs; [simpl; auto|].
  cbn [fold_left]. cbv zeta in IH |- *.
  assert (Hm : mouseMoveEvent p s
               = {| begin := begin s; end_ := p; is_selecting := true;
                    screenshot := screenshot s; rubber_band := rubber_band s;
                    shown := shown s; closed := closed s |})
    by (unfold mouseMoveEvent; now rewrite Hs).
  destruct (IH (mouseMoveEvent p s)) as [Hb [He [Hsel Hshot]]];
    [now rewrite Hm|].
  rewrite Hb, He, Hsel, Hshot, Hm, last_cons. simpl. repeat split.
Qed.

(** X3. While the button is held the selection runs from the press position
    to the position of the last move; the moves in between leave no trace. *)
Theorem drag_selection (press : QPoint) (moves : list QPoint) (s : SnippingWidget) :
  begin (drag press moves s) = press
  /\ end_ (drag press moves s) = last moves press
  /\ is_selecting (drag press moves s) = true
  /\ screenshot (drag press moves s) = screenshot s.
Proof.
  unfold drag.
  destruct (drag_moves moves (mousePressEvent press s) eq_refl) as [Hb [He [Hs Hshot]]].
  repeat split; assumption.
Qed.

(** X5. A snip whose drag stays under 10 pixels in one direction is dropped
    without a call, and the main window, hidden by [start_snipping], is left
    hidden: only [process_capture] shows it again. *)
Theorem snip_session_discarded
    (crop : Image RGB -> QRect -> Image RGB) (shot : Image RGB)
    (press : QPoint) (moves : list QPoint) (w : MainWindow) :
  let release := last moves press in
  Z.abs (px release - px press) < 10 \/ Z.abs (py release - py press) < 10 ->
  exists s',
    snip_session crop shot press moves w = (s', start_snipping w, [])
    /\ closed s' = true
    /\ visible (start_snipping w) = false
    /\ captured_image (start_snipping w) = captured_image w.
Proof.
  intros release Hsmall. unfold snip_session, mouseReleaseEvent.
  destruct (drag_moves moves
              (mousePressEvent press (start_snip shot SnippingWidget_init))
              eq_refl) as [Hb [He _]].
  unfold drag. rewrite Hb, He. simpl begin. simpl end_. fold release.
  assert (Hg : (10 <? width (normalized (QRect_of press release)))
               && (10 <? height (normalized (QRect_of press release))) = false).
  { apply not_true_iff_false. rewrite guard_iff_moved. lia. }
  rewrite Hg. eexists. repeat split.
Qed.

Lemma snip_session_discarded_witness :
  exists s',
    snip_session (fun shot _ => shot) img_3x3 (mkPoint 100 100)
                 [mkPoint 300 105] MainWindow_init
    = (s', start_snipping MainWindow_init, [])
    /\ closed s' = true
    /\ visible (start_snipping MainWindow_init) = false
    /\ captured_image (start_snipping MainWindow_init)
       = captured_image MainWindow_init.
Proof.
  apply (snip_session_discarded (fun shot _ => shot) img_3x3 (mkPoint 100 100)
           [mkPoint 300 105] MainWindow_init).
  right. vm_compute. reflexivity.
Defined.

(** X6. Without a screen grab (the overlay was never started) even a large
    selection hands nothing to the main window: [capture_region] is entered
    and returns without calling [process_capture]. *)
Theorem release_without_screenshot
    (crop : Image RGB -> QRect -> Image RGB)
    (s : SnippingWidget) (parent : MainWindow) :
  screenshot s = None ->
  10 <= Z.abs (px (end_ s) - px (begin s)) ->
  10 <= Z.abs (py (end_ s) - py (begin s)) ->
  snd (fst (mouseReleaseEvent crop s parent)) = parent
  /\ snd (mouseReleaseEvent crop s parent)
     = [CaptureRegion (normalized (QRect_of (begin s) (end_ s)))].
Proof.
  intros Hshot Hx Hy. unfold mouseReleaseEvent.
  rewrite (proj2 (guard_iff_moved (begin s) (end_ s)) (conj Hx Hy)).
  unfold capture_region. rewrite Hshot. split; reflexivity.
Qed.

Lemma release_without_screenshot_witness :
  let s := drag (mkPoint 0 0) [mkPoint 50 50] SnippingWidget_init in
  snd (fst (mouseReleaseEvent (fun shot _ => shot) s MainWindow_init))
  = MainWindow_init
  /\ snd (mouseReleaseEvent (fun shot _ => shot) s MainWindow_init)
     = [CaptureRegion (normalized (QRect_of (begin s) (end_ s)))].
Proof.
  apply (release_without_screenshot (fun shot _ => shot)
           (drag (mkPoint 0 0) [mkPoint 50 50] SnippingWidget_init)
           MainWindow_init).
  - reflexivity.
  - vm_compute. discriminate.
  - vm_compute. discriminate.
Defined.

(** X7. Escape cancels a selection in progress: the overlay is hidden and
    closed, later pointer moves no longer change the selection; any other key
    is ignored, also in the middle of a drag. *)
Theorem escape_cancels (press : QPoint) (moves : list QPoint)
    (s : SnippingWidget) (key : Z) (pos : QPoint) :
  let cancelled := keyPressEvent Key_Escape (drag press moves s) in
  is_selecting cancelled = false
  /\ shown cancelled = false /\ closed cancelled = true
  /\ mouseMoveEvent pos cancelled = cancelled
  /\ (key <> Key_Escape ->
      keyPressEvent key (drag press moves s) = drag press moves s).
Proof.
  simpl. repeat split.
  intros Hkey. unfold keyPressEvent.
  destruct (Z.eqb_spec key Key_Escape); [contradiction | reflexivity].
Qed.

Lemma escape_cancels_witness :
  let cancelled :=
    keyPressEvent Key_Escape
      (drag (mkPoint 0 0) [mkPoint 50 50] SnippingWidget_init) in
  is_selecting cancelled = false
  /\ shown cancelled = false /\ closed cancelled = true
  /\ mouseMoveEvent (mkPoint 7 7) cancelled = cancelled
  /\ (65 <> Key_Escape ->
      keyPressEvent 65 (drag (mkPoint 0 0) [mkPoint 50 50] SnippingWidget_init)
      = drag (mkPoint 0 0) [mkPoint 50 50] SnippingWidget_init).
Proof.
  exact (escape_cancels (mkPoint 0 0) [mkPoint 50 50] SnippingWidget_init 65
                        (mkPoint 7 7)).
Defined.

(** ** The main window between events *)

Lemma invariant_init : shell_invariant MainWindow_init.
Proof.
  constructor; simpl; try reflexivity; try discriminate; try lia.
  intros H. now contradiction H.
Qed.

Lemma invariant_process_capture (image : Image RGB) (w : MainWindow) :
  shell_invariant w -> shell_invariant (process_capture image w).
Proof.
  intros [Hs Hp He Hv Ht Hc Hn].
  constructor; simpl; try assumption; discriminate.
Qed.

Lemma invariant_interrupted (image : Image RGB) (w : MainWindow) :
  shell_invariant w -> shell_invariant (process_capture_interrupted image w).
Proof.
  intros [Hs Hp He Hv Ht Hc Hn].
  constructor; simpl; try assumption; discriminate.
Qed.

Lemma invariant_set_text_label (t : string) (w : MainWindow) :
  shell_invariant w -> shell_invariant (set_text_label t w).
Proof. intros [Hs Hp He Hv Ht Hc Hn]. constructor; simpl; assumption. Qed.

Lemma invariant_extract_text (ocr : OCR) (w : MainWindow) :
  shell_invariant w -> shell_invariant (fst (extract_text ocr w)).
Proof.
  intros Hinv. unfold extract_text.
  destruct (captured_image w) as [image|] eqn:Himg; [|exact Hinv].
  destruct Hinv as [Hs Hp He Hv Ht Hc Hn].
  destruct (recognize ocr _ image) as [[text|e] calls].
  - destruct (truthy (strip text)) eqn:Htruthy; simpl.
    + rewrite truthy_strip in Htruthy. apply negb_true_iff in Htruthy.
      constructor; simpl; try assumption.
      * intros t Heq. now injection Heq as <-.
      * discriminate.
    + constructor; simpl; try assumption. discriminate.
  - simpl. constructor; simpl; assumption.
Qed.

Lemma invariant_release (crop : Image RGB -> QRect -> Image RGB)
    (s : SnippingWidget) (w : MainWindow) :
  shell_invariant w -> shell_invariant (snd (fst (mouseReleaseEvent crop s w))).
Proof.
  intros Hinv. unfold mouseReleaseEvent.
  destruct ((10 <? width _) && (10 <? height _)); [|exact Hinv].
  unfold capture_region. destruct (screenshot s); simpl; [|exact Hinv].
  now apply invariant_process_capture.
Qed.

Lemma invariant_paste (open : string -> result (Image RGB))
    (to_pil : Image RGB -> result (Image RGB))
    (save : Image RGB -> result unit) (cb : Clipboard) (w : MainWindow) :
  shell_invariant w ->
  shell_invariant (window_after (paste_from_clipboard open to_pil save cb w)).
Proof.
  intros Hinv. unfold paste_from_clipboard.
  destruct (hasImage cb).
  - destruct (clip_image cb) as [q_image|]; [|exact Hinv].
    destruct (to_pil q_image) as [pil_image|e]; [|exact Hinv].
    destruct (save pil_image); simpl.
    + now apply invariant_set_text_label, invariant_process_capture.
    + now apply invariant_interrupted.
  - destruct (hasUrls cb); [|exact Hinv].
    destruct (urls cb) as [|file_path rest]; [exact Hinv|].
    destruct (open file_path) as [pil_image|e]; [|exact Hinv].
    destruct (save pil_image); simpl.
    + now apply invariant_set_text_label, invariant_process_capture.
    + now apply invariant_interrupted.
Qed.

(** The invariant holds in every reachable state. *)
Lemma reachable_states_invariant (w : MainWindow) :
  shell_reachable w -> shell_invariant w.
Proof.
  induction 1 as [|w _ IH|w crop s _ IH|w image _ IH|w open to_pil save cb _ IH
                  |w i _ IH Hi|w ocr _ IH _].
  - exact invariant_init.
  - destruct IH as [Hs Hp He Hv Ht Hc Hn]. constructor; simpl; assumption.
  - now apply invariant_release.
  - now apply invariant_interrupted.
  - now apply invariant_paste.
  - destruct IH as [Hs Hp He Hv Ht Hc Hn]. constructor; simpl; assumption.
  - now apply invariant_extract_text.
Qed.

Lemma shell_capture (image : Image RGB) (w : MainWindow) :
  shell_reachable w -> shell_reachable (process_capture image w).
Proof.
  intros H.
  exact (shell_release w (fun shot _ => shot)
           (mkWidget (mkPoint 0 0) (mkPoint 50 50) true (Some image) true true false)
           H).
Qed.

Lemma window_after_blank_shell_reachable : shell_reachable window_after_blank.
Proof.
  unfold window_after_blank.
  apply shell_extract; [apply shell_extract; [|reflexivity] | reflexivity].
  apply shell_capture, shell_init.
Qed.

(** X8. In every state the user can bring the window to, failed captures
    and pastes included: the snip and paste buttons are enabled; the extract
    button is enabled, and a preview shown, only while an image is held; a
    stored text is never blank; the copy button is enabled only while a text
    is stored; the engine index is valid. *)
Theorem shell_reachable_invariant (w : MainWindow) :
  shell_reachable w ->
  snip_btn w = true
  /\ paste_btn w = true
  /\ (extract_btn w = true -> captured_image w <> None)
  /\ (image_label w <> None -> captured_image w <> None)
  /\ (forall t, extracted_text w = Some t -> whitespace_only t = false)
  /\ (copy_btn w = true -> extracted_text w <> None)
  /\ (ocr_combo w < length ocr_items)%nat.
Proof.
  intros H. destruct (reachable_states_invariant w H) as [Hs Hp He Hv Ht Hc Hn].
  repeat split; assumption.
Qed.

Lemma shell_reachable_invariant_witness :
  snip_btn window_after_blank = true
  /\ paste_btn window_after_blank = true
  /\ (extract_btn window_after_blank = true
      -> captured_image window_after_blank <> None)
  /\ (image_label window_after_blank <> None
      -> captured_image window_after_blank <> None)
  /\ (forall t, extracted_text window_after_blank = Some t
                -> whitespace_only t = false)
  /\ (copy_btn window_after_blank = true
      -> extracted_text window_after_blank <> None)
  /\ (ocr_combo window_after_blank < length ocr_items)%nat.
Proof.
  apply (shell_reachable_invariant window_after_blank).
  exact window_after_blank_shell_reachable.
Defined.

(** The converse of the extract-button invariant fails: a file that opens
    but cannot be written as PNG leaves an image held with the extract
    button disabled and nothing previewed. *)
Example image_held_extract_disabled :
  let w := window_after
             (paste_from_clipboard (fun _ => Ok img_3x3) (fun q => Ok q)
                (fun _ => Raise "cannot write mode CMYK as PNG")
                (mkClipboard false None true ["/tmp/a.jpg"%string])
                MainWindow_init) in
  shell_reachable w
  /\ captured_image w = Some img_3x3
  /\ extract_btn w = false /\ image_label w = None.
Proof.
  split; [|repeat split].
  exact (shell_paste MainWindow_init (fun _ => Ok img_3x3) (fun q => Ok q)
           (fun _ => Raise "cannot write mode CMYK as PNG")
           (mkClipboard false None true ["/tmp/a.jpg"%string]) shell_init).
Qed.

Lemma reachable_shell_reachable (w : MainWindow) :
  reachable w -> shell_reachable w.
Proof.
  induction 1 as [|w _ IH|w image _ IH|w i _ IH Hi|w ocr _ IH He].
  - exact shell_init.
  - now apply shell_snip.
  - now apply shell_capture.
  - now apply shell_select.
  - now apply shell_extract.
Qed.

(** ** Copying *)



Lemma paste_keeps_text (open : string -> result (Image RGB))
    (to_pil : Image RGB -> result (Image RGB))
    (save : Image RGB -> result unit) (cb : Clipboard) (w : MainWindow) :
  extracted_text (window_after (paste_from_clipboard open to_pil save cb w))
  = extracted_text w
  /\ copy_btn (window_after (paste_from_clipboard open to_pil save cb w))
     = copy_btn w.
Proof.
  unfold paste_from_clipboard.
  destruct (hasImage cb).
  - destruct (clip_image cb) as [q_image|]; [|split; reflexivity].
    destruct (to_pil q_image) as [pil_image|e]; [|split; reflexivity].
    destruct (save pil_image); split; reflexivity.
  - destruct (hasUrls cb); [|split; reflexivity].
    destruct (urls cb) as [|f r]; [split; reflexivity|].
    destruct (open f) as [pil_image|e]; [|split; reflexivity].
    destruct (save pil_image); split; reflexivity.
Qed.

(** X10. A new image, whether snipped or pasted, and whether or not taking
    it in ran to its end, does not clear the text of the previous extraction
    nor touch the copy button: copying after it still writes the old text. *)
Theorem new_image_keeps_old_text
    (crop : Image RGB -> QRect -> Image RGB) (s : SnippingWidget)
    (open : string -> result (Image RGB))
    (to_pil : Image RGB -> result (Image RGB))
    (save : Image RGB -> result unit) (cb : Clipboard)
    (copied : result unit) (w : MainWindow) :
  let snipped := snd (fst (mouseReleaseEvent crop s w)) in
  let pasted := window_after (paste_from_clipboard open to_pil save cb w) in
  extracted_text snipped = extracted_text w
  /\ copy_btn snipped = copy_btn w
  /\ copy_to_clipboard copied snipped = copy_to_clipboard copied w
  /\ extracted_text pasted = extracted_text w
  /\ copy_btn pasted = copy_btn w
  /\ copy_to_clipboard copied pasted = copy_to_clipboard copied w.
Proof.
  assert (Hs : extracted_text (snd (fst (mouseReleaseEvent crop s w)))
               = extracted_text w
               /\ copy_btn (snd (fst (mouseReleaseEvent crop s w))) = copy_btn w).
  { unfold mouseReleaseEvent.
    destruct ((10 <? width _) && (10 <? height _)); [|split; reflexivity].
    unfold capture_region. destruct (screenshot s); split; reflexivity. }
  destruct Hs as [Hs1 Hs2].
  destruct (paste_keeps_text open to_pil save cb w) as [Hp1 Hp2].
  cbv zeta. unfold copy_to_clipboard. rewrite Hs1, Hp1. repeat split; assumption.
Qed.

(** ** Pasting *)


(** X12. An image on the clipboard wins over file URLs: with [hasImage] the
    URL list and the file system are never consulted, so a null image gives
    the "No Image" warning even when a good file URL is present. *)
Theorem paste_image_before_urls
    (open open' : string -> result (Image RGB))
    (to_pil : Image RGB -> result (Image RGB))
    (save : Image RGB -> result unit) (cb : Clipboard)
    (flag : bool) (paths : list string) (w : MainWindow) :
  hasImage cb = true ->
  paste_from_clipboard open to_pil save cb w
  = paste_from_clipboard open' to_pil save
      (mkClipboard true (clip_image cb) flag paths) w
  /\ (clip_image cb = None ->
      paste_from_clipboard open to_pil save cb w
      = mkOutcome w
          [MessageBoxWarning "No Image" "No valid image found in clipboard"]
          None).
Proof.
  intros Himg. unfold paste_from_clipboard. rewrite Himg. simpl.
  split; [reflexivity|]. now intros ->.
Qed.

Lemma paste_image_before_urls_witness :
  paste_from_clipboard (fun _ => Ok img_flat) (fun q => Ok q) (fun _ => Ok tt)
    (mkClipboard true None true ["/tmp/a.png"%string]) MainWindow_init
  = paste_from_clipboard (fun _ => Raise "missing") (fun q => Ok q) (fun _ => Ok tt)
      (mkClipboard true None false []) MainWindow_init
  /\ (clip_image (mkClipboard true None true ["/tmp/a.png"%string]) = None ->
      paste_from_clipboard (fun _ => Ok img_flat) (fun q => Ok q) (fun _ => Ok tt)
        (mkClipboard true None true ["/tmp/a.png"%string]) MainWindow_init
      = mkOutcome MainWindow_init
          [MessageBoxWarning "No Image" "No valid image found in clipboard"]
          None).
Proof.
  apply (paste_image_before_urls (fun _ => Ok img_flat) (fun _ => Raise "missing")
           (fun q => Ok q) (fun _ => Ok tt)
           (mkClipboard true None true ["/tmp/a.png"%string]) false []
           MainWindow_init).
  reflexivity.
Defined.

(** X13. Of several file URLs only the first is opened: the outcome of the
    paste does not depend on the others, and a failure to open the first is
    reported without trying the next, the window staying as it was. An empty
    URL list gives no notice at all. *)
Theorem paste_first_url_only
    (open : string -> result (Image RGB))
    (to_pil : Image RGB -> result (Image RGB))
    (save : Image RGB -> result unit) (cb : Clipboard) (w : MainWindow)
    (file_path : string) (rest : list string) :
  hasImage cb = false -> hasUrls cb = true ->
  (urls cb = file_path :: rest ->
   paste_from_clipboard open to_pil save cb w
   = paste_from_clipboard open to_pil save
       (mkClipboard false None true [file_path]) w
   /\ forall e, open file_path = Raise e ->
        paste_from_clipboard open to_pil save cb w
        = mkOutcome w
            [MessageBoxWarning "Error" ("Could not open image file: " ++ e)]
            None)
  /\ (urls cb = [] ->
      paste_from_clipboard open to_pil save cb w = mkOutcome w [] None).
Proof.
  intros Himg Hurls. unfold paste_from_clipboard. rewrite Himg, Hurls. simpl.
  split.
  - intros ->. split; [reflexivity|]. now intros e ->.
  - now intros ->.
Qed.

Lemma paste_first_url_only_witness :
  let open := fun p : string =>
                if String.eqb p "/tmp/a.txt" then Raise "cannot identify image file"
                else Ok img_flat in
  let to_pil := fun q : Image RGB => Ok q in
  let save := fun _ : Image RGB => Ok tt in
  let cb := mkClipboard false None true ["/tmp/a.txt"; "/tmp/b.png"]%string in
  (urls cb = ["/tmp/a.txt"; "/tmp/b.png"]%string ->
   paste_from_clipboard open to_pil save cb MainWindow_init
   = paste_from_clipboard open to_pil save
       (mkClipboard false None true ["/tmp/a.txt"%string]) MainWindow_init
   /\ forall e, open "/tmp/a.txt"%string = Raise e ->
        paste_from_clipboard open to_pil save cb MainWindow_init
        = mkOutcome MainWindow_init
            [MessageBoxWarning "Error" ("Could not open image file: " ++ e)]
            None)
  /\ (urls cb = [] ->
      paste_from_clipboard open to_pil save cb MainWindow_init
      = mkOutcome MainWindow_init [] None).
Proof.
  apply (paste_first_url_only
           (fun p : string =>
              if String.eqb p "/tmp/a.txt" then Raise "cannot identify image file"
              else Ok img_flat)
           (fun q : Image RGB => Ok q) (fun _ : Image RGB => Ok tt)
           (mkClipboard false None true ["/tmp/a.txt"; "/tmp/b.png"]%string)
           MainWindow_init "/tmp/a.txt" ["/tmp/b.png"%string]).
  - reflexivity.
  - reflexivity.
Defined.

Lemma extract_text_starts (ocr : OCR) (w : MainWindow) (image : Image RGB) :
  captured_image w = Some image ->
  exists rest,
    snd (extract_text ocr w) = ProcessEvents :: Preprocess image :: rest.
Proof.
  intros Himg. unfold extract_text. rewrite Himg, recognize_set_text_label.
  unfold recognize.
  destruct (preprocess_image image) as [processed|e].
  - destruct (contains "Tesseract" _).
    + destruct (image_to_string ocr processed "--psm 6") as [text|e];
        [destruct (truthy (strip text))|]; eexists; reflexivity.
    + destruct (contains "EasyOCR" _).
      * destruct (easyocr ocr) as [readtext|].
        -- destruct (readtext processed) as [res|e]; simpl;
             [destruct (truthy (strip _))|]; eexists; reflexivity.
        -- simpl. eexists; reflexivity.
      * simpl. eexists; reflexivity.
  - eexists; reflexivity.
Qed.

(** X14. After an image file was pasted by URL (the file opens and the
    preview PNG can be written), the window shows the image, holds it as the
    current image and enables extraction, the handler returns normally with
    no warning; extracting then preprocesses exactly that image. *)
Theorem paste_file_then_extract
    (open : string -> result (Image RGB))
    (to_pil : Image RGB -> result (Image RGB))
    (save : Image RGB -> result unit) (cb : Clipboard) (ocr : OCR)
    (w : MainWindow) (file_path : string) (rest : list string)
    (image : Image RGB) :
  hasImage cb = false -> hasUrls cb = true -> urls cb = file_path :: rest ->
  open file_path = Ok image -> save image = Ok tt ->
  let out := paste_from_clipboard open to_pil save cb w in
  let pasted := window_after out in
  calls_made out = [ProcessCapture image] /\ uncaught out = None
  /\ visible pasted = true
  /\ captured_image pasted = Some image
  /\ image_label pasted = Some image
  /\ extract_btn pasted = true
  /\ text_label pasted
     = "Image loaded from file! Click 'Extract Text' to process."%string
  /\ exists trace,
       snd (extract_text ocr pasted) = ProcessEvents :: Preprocess image :: trace.
Proof.
  intros Hhas Hurls Hlist Hopen Hsave. cbv zeta.
  unfold paste_from_clipboard. rewrite Hhas, Hurls, Hlist, Hopen, Hsave. simpl.
  repeat split. now apply extract_text_starts.
Qed.

Lemma paste_file_then_extract_witness :
  let open := fun _ : string => Ok img_3x3 in
  let to_pil := fun q : Image RGB => Ok q in
  let save := fun _ : Image RGB => Ok tt in
  let cb := mkClipboard false None true ["/tmp/shot.png"%string] in
  let out := paste_from_clipboard open to_pil save cb MainWindow_init in
  let pasted := window_after out in
  calls_made out = [ProcessCapture img_3x3] /\ uncaught out = None
  /\ visible pasted = true
  /\ captured_image pasted = Some img_3x3
  /\ image_label pasted = Some img_3x3
  /\ extract_btn pasted = true
  /\ text_label pasted
     = "Image loaded from file! Click 'Extract Text' to process."%string
  /\ exists trace,
       snd (extract_text (ocr_returning "HELLO") pasted)
       = ProcessEvents :: Preprocess img_3x3 :: trace.
Proof.
  apply (paste_file_then_extract (fun _ : string => Ok img_3x3)
           (fun q : Image RGB => Ok q) (fun _ : Image RGB => Ok tt)
           (mkClipboard false None true ["/tmp/shot.png"%string])
           (ocr_returning "HELLO") MainWindow_init "/tmp/shot.png" [] img_3x3).
  - reflexivity.
  - reflexivity.
  - reflexivity.
  - reflexivity.
  - reflexivity.
Defined.

(** X24. A file that opens but whose preview PNG cannot be written is
    reported as "Could not open image file", yet the window is not as
    before: it is shown and holds the file's image as the current image,
    while preview, label, stored text and every button, the extract button
    included, are unchanged. *)
Theorem paste_file_save_fails
    (open : string -> result (Image RGB))
    (to_pil : Image RGB -> result (Image RGB))
    (save : Image RGB -> result unit) (cb : Clipboard)
    (w : MainWindow) (file_path : string) (rest : list string)
    (image : Image RGB) (e : string) :
  hasImage cb = false -> hasUrls cb = true -> urls cb = file_path :: rest ->
  open file_path = Ok image -> save image = Raise e ->
  let out := paste_from_clipboard open to_pil save cb w in
  let pasted := window_after out in
  calls_made out
  = [ProcessCapture image;
     MessageBoxWarning "Error" ("Could not open image file: " ++ e)]
  /\ uncaught out = None
  /\ visible pasted = true
  /\ captured_image pasted = Some image
  /\ image_label pasted = image_label w
  /\ text_label pasted = text_label w
  /\ extracted_text pasted = extracted_text w
  /\ extract_btn pasted = extract_btn w
  /\ copy_btn pasted = copy_btn w.
Proof.
  intros Hhas Hurls Hlist Hopen Hsave. cbv zeta.
  unfold paste_from_clipboard. rewrite Hhas, Hurls, Hlist, Hopen, Hsave. simpl.
  repeat split.
Qed.

Lemma paste_file_save_fails_witness :
  let open := fun _ : string => Ok img_3x3 in
  let to_pil := fun q : Image RGB => Ok q in
  let save := fun _ : Image RGB => Raise "cannot write mode CMYK as PNG" in
  let cb := mkClipboard false None true ["/tmp/a.jpg"%string] in
  let out := paste_from_clipboard open to_pil save cb MainWindow_init in
  let pasted := window_after out in
  calls_made out
  = [ProcessCapture img_3x3;
     MessageBoxWarning "Error"
       ("Could not open image file: " ++ "cannot write mode CMYK as PNG")]
  /\ uncaught out = None
  /\ visible pasted = true
  /\ captured_image pasted = Some img_3x3
  /\ image_label pasted = image_label MainWindow_init
  /\ text_label pasted = text_label MainWindow_init
  /\ extracted_text pasted = extracted_text MainWindow_init
  /\ extract_btn pasted = extract_btn MainWindow_init
  /\ copy_btn pasted = copy_btn MainWindow_init.
Proof.
  apply (paste_file_save_fails (fun _ : string => Ok img_3x3)
           (fun q : Image RGB => Ok q)
           (fun _ : Image RGB => Raise "cannot write mode CMYK as PNG")
           (mkClipboard false None true ["/tmp/a.jpg"%string])
           MainWindow_init "/tmp/a.jpg" [] img_3x3
           "cannot write mode CMYK as PNG").
  - reflexivity.
  - reflexivity.
  - reflexivity.
  - reflexivity.
  - reflexivity.
Defined.

(** ** Extraction, engine by engine *)

(** X15. With the Tesseract entry selected and a text that is not blank,
    extraction preprocesses the captured image, passes the result to
    Tesseract with [--psm 6], shows and stores the text and enables copy. *)
Theorem tesseract_text_shown (ocr : OCR) (w : MainWindow) (image : Image RGB)
    (text : string) :
  captured_image w = Some image ->
  well_formed image -> (0 < xsize image)%nat -> (0 < ysize image)%nat ->
  ocr_combo w = 0%nat ->
  (forall processed, image_to_string ocr processed "--psm 6" = Ok text) ->
  whitespace_only text = false ->
  exists processed w',
    preprocess_image image = Ok processed
    /\ extract_text ocr w
       = (w', [ProcessEvents; Preprocess image; Tesseract processed "--psm 6"])
    /\ text_label w' = text
    /\ extracted_text w' = Some text
    /\ copy_btn w' = true
    /\ captured_image w' = Some image.
Proof.
  intros Himg Hwf Hx Hy Hsel Hocr Hblank.
  destruct (preprocess_image_returns image Hwf Hx Hy) as [sharpened [_ Hout]].
  exists (binarize sharpened). eexists. split; [exact Hout|].
  unfold extract_text. rewrite Himg, recognize_set_text_label.
  unfold recognize, currentText. rewrite Hsel, Hout. simpl.
  rewrite Hocr, truthy_strip, Hblank. simpl.
  repeat split. exact Himg.
Qed.

Lemma tesseract_text_shown_witness :
  exists processed w',
    preprocess_image img_3x3 = Ok processed
    /\ extract_text (ocr_returning "HELLO") (process_capture img_3x3 MainWindow_init)
       = (w', [ProcessEvents; Preprocess img_3x3; Tesseract processed "--psm 6"])
    /\ text_label w' = "HELLO"%string
    /\ extracted_text w' = Some "HELLO"%string
    /\ copy_btn w' = true
    /\ captured_image w' = Some img_3x3.
Proof.
  apply (tesseract_text_shown (ocr_returning "HELLO")
           (process_capture img_3x3 MainWindow_init) img_3x3 "HELLO").
  - reflexivity.
  - split; [reflexivity | repeat constructor].
  - simpl; lia.
  - simpl; lia.
  - reflexivity.
  - reflexivity.
  - reflexivity.
Defined.

(** X16. With the EasyOCR entry selected and the package missing, no
    exception reaches the handler's [except] branch: the install hint is
    treated as the recognized text, so it is shown, stored as the extracted
    text and offered for copying, and no warning box appears. *)
Theorem easyocr_missing_hint_stored (ocr : OCR) (w : MainWindow)
    (image : Image RGB) :
  captured_image w = Some image ->
  well_formed image -> (0 < xsize image)%nat -> (0 < ysize image)%nat ->
  ocr_combo w = 1%nat ->
  easyocr ocr = None ->
  let hint :=
    "EasyOCR not installed. Please install with: pip install easyocr"%string in
  text_label (fst (extract_text ocr w)) = hint
  /\ extracted_text (fst (extract_text ocr w)) = Some hint
  /\ copy_btn (fst (extract_text ocr w)) = true
  /\ snd (extract_text ocr w) = [ProcessEvents; Preprocess image; ImportEasyOCR].
Proof.
  intros Himg Hwf Hx Hy Hsel Heasy.
  destruct (preprocess_image_returns image Hwf Hx Hy) as [sharpened [_ Hout]].
  unfold extract_text. rewrite Himg, recognize_set_text_label.
  unfold recognize, currentText. rewrite Hsel, Hout, Heasy. simpl.
  repeat split.
Qed.

Lemma easyocr_missing_hint_stored_witness :
  let w := set_ocr_combo 1 (process_capture img_3x3 MainWindow_init) in
  let hint :=
    "EasyOCR not installed. Please install with: pip install easyocr"%string in
  text_label (fst (extract_text (ocr_returning "HELLO") w)) = hint
  /\ extracted_text (fst (extract_text (ocr_returning "HELLO") w)) = Some hint
  /\ copy_btn (fst (extract_text (ocr_returning "HELLO") w)) = true
  /\ snd (extract_text (ocr_returning "HELLO") w)
     = [ProcessEvents; Preprocess img_3x3; ImportEasyOCR].
Proof.
  apply (easyocr_missing_hint_stored (ocr_returning "HELLO")
           (set_ocr_combo 1 (process_capture img_3x3 MainWindow_init)) img_3x3).
  - reflexivity.
  - split; [reflexivity | repeat constructor].
  - simpl; lia.
  - simpl; lia.
  - reflexivity.
  - reflexivity.
Defined.

Lemma whitespace_only_append (a b : string) :
  whitespace_only (a ++ b) = whitespace_only a && whitespace_only b.
Proof.
  induction a as [|c a IH]; simpl; [reflexivity|].
  now rewrite IH, andb_assoc.
Qed.

Lemma whitespace_only_join (l : list string) :
  Forall (fun s => whitespace_only s = true) l ->
  whitespace_only (join newline l) = true.
Proof.
  unfold join. induction 1 as [|s t Hs Ht IH]; [reflexivity|].
  destruct t as [|s' t']; [exact Hs|].
  change (String.concat newline (s :: s' :: t'))
    with (s ++ newline ++ String.concat newline (s' :: t'))%string.
  rewrite !whitespace_only_append, Hs, IH. reflexivity.
Qed.

(** X17. With EasyOCR installed, the recognized text is the items' texts
    joined by newlines; when EasyOCR finds no item, or only blank ones, the
    window shows "No text detected in image" and copy is disabled. *)
Theorem easyocr_items_joined (ocr : OCR) (w : MainWindow) (image : Image RGB)
    (readtext : Image Z -> result (list ocr_item)) (items : list ocr_item) :
  captured_image w = Some image ->
  well_formed image -> (0 < xsize image)%nat -> (0 < ysize image)%nat ->
  ocr_combo w = 1%nat ->
  easyocr ocr = Some readtext ->
  (forall processed, readtext processed = Ok items) ->
  fst (recognize ocr w image) = Ok (join newline (map item_text items))
  /\ (Forall (fun it => whitespace_only (item_text it) = true) items ->
      text_label (fst (extract_text ocr w)) = "No text detected in image"%string
      /\ copy_btn (fst (extract_text ocr w)) = false
      /\ extracted_text (fst (extract_text ocr w)) = extracted_text w).
Proof.
  intros Himg Hwf Hx Hy Hsel Heasy Hread.
  destruct (preprocess_image_returns image Hwf Hx Hy) as [sharpened [_ Hout]].
  assert (Hrec : recognize ocr w image
                 = (Ok (join newline (map item_text items)),
                    [Preprocess image; ImportEasyOCR; EasyOCR (binarize sharpened)])).
  { unfold recognize, currentText. rewrite Hsel, Hout, Heasy. simpl.
    now rewrite Hread. }
  split; [now rewrite Hrec|].
  intros Hblank.
  assert (Hw : whitespace_only (join newline (map item_text items)) = true).
  { apply whitespace_only_join. apply Forall_map. exact Hblank. }
  unfold extract_text. rewrite Himg, recognize_set_text_label, Hrec.
  rewrite truthy_strip, Hw. simpl. repeat split.
Qed.

Lemma easyocr_items_joined_witness :
  let ocr := mkOCR (fun _ _ => Ok "unused"%string) (Some (fun _ => Ok [])) in
  let w := set_ocr_combo 1 (process_capture img_3x3 MainWindow_init) in
  fst (recognize ocr w img_3x3) = Ok (join newline (map item_text []))
  /\ (Forall (fun it => whitespace_only (item_text it) = true) [] ->
      text_label (fst (extract_text ocr w)) = "No text detected in image"%string
      /\ copy_btn (fst (extract_text ocr w)) = false
      /\ extracted_text (fst (extract_text ocr w)) = extracted_text w).
Proof.
  apply (easyocr_items_joined
           (mkOCR (fun _ _ => Ok "unused"%string) (Some (fun _ => Ok [])))
           (set_ocr_combo 1 (process_capture img_3x3 MainWindow_init))
           img_3x3 (fun _ => Ok []) []).
  - reflexivity.
  - split; [reflexivity | repeat constructor].
  - simpl; lia.
  - simpl; lia.
  - reflexivity.
  - reflexivity.
  - reflexivity.
Defined.

(** X18. Whatever the outcome, [extract_text] leaves the captured image,
    its preview, the selected engine, the window's visibility and the snip,
    paste and extract buttons alone; only the label, the stored text and the
    copy button can change. *)
Theorem extract_text_frame (ocr : OCR) (w : MainWindow) :
  let w' := fst (extract_text ocr w) in
  captured_image w' = captured_image w
  /\ image_label w' = image_label w
  /\ ocr_combo w' = ocr_combo w
  /\ visible w' = visible w
  /\ snip_btn w' = snip_btn w
  /\ paste_btn w' = paste_btn w
  /\ extract_btn w' = extract_btn w.
Proof.
  unfold extract_text.
  destruct (captured_image w) as [image|] eqn:Himg;
    [|simpl; repeat split; assumption].
  destruct (recognize ocr _ image) as [[text|e] calls];
    [destruct (truthy (strip text))|]; simpl; repeat split; assumption.
Qed.

(** X19. The engine choice decides which backend is consulted: with the
    Tesseract entry EasyOCR is never imported, with the EasyOCR entry
    Tesseract is never called, and every extraction on a captured image
    starts with one pass of the preprocessor. *)
Theorem engine_dispatch (ocr : OCR) (w : MainWindow) :
  (ocr_combo w = 0%nat ->
   Forall (fun c => match c with ImportEasyOCR | EasyOCR _ => False | _ => True end)
          (snd (extract_text ocr w)))
  /\ (ocr_combo w = 1%nat ->
      Forall (fun c => match c with Tesseract _ _ => False | _ => True end)
             (snd (extract_text ocr w)))
  /\ (forall image, captured_image w = Some image ->
        exists rest,
          snd (extract_text ocr w) = ProcessEvents :: Preprocess image :: rest
          /\ Forall (fun c => match c with Preprocess _ => False | _ => True end)
                    rest).
Proof.
  unfold extract_text. repeat split.
  - intros Hsel. destruct (captured_image w) as [image|]; [|constructor].
    rewrite recognize_set_text_label. unfold recognize, currentText. rewrite Hsel.
    destruct (preprocess_image image) as [processed|e]; simpl;
      [destruct (image_to_string ocr processed "--psm 6") as [text|e];
       [destruct (truthy (strip text))|]|]; simpl; repeat constructor.
  - intros Hsel. destruct (captured_image w) as [image|]; [|constructor].
    rewrite recognize_set_text_label. unfold recognize, currentText. rewrite Hsel.
    destruct (preprocess_image image) as [processed|e]; simpl;
      [|repeat constructor].
    destruct (easyocr ocr) as [readtext|]; simpl; [|repeat constructor].
    destruct (readtext processed) as [res|e]; simpl;
      [destruct (truthy (strip _))|]; simpl; repeat constructor.
  - intros image Himg. rewrite Himg, recognize_set_text_label.
    unfold recognize.
    destruct (preprocess_image image) as [processed|e].
    + destruct (contains "Tesseract" _).
      * destruct (image_to_string ocr processed "--psm 6") as [text|e];
          [destruct (truthy (strip text))|]; simpl; eexists;
          (split; [reflexivity | repeat constructor]).
      * destruct (contains "EasyOCR" _).
        -- destruct (easyocr ocr) as [readtext|].
           ++ destruct (readtext processed) as [res|e]; simpl;
                [destruct (truthy (strip _))|]; simpl; eexists;
                (split; [reflexivity | repeat constructor]).
           ++ simpl. eexists. split; [reflexivity | repeat constructor].
        -- simpl. eexists. split; [reflexivity | repeat constructor].
    + simpl. eexists. split; [reflexivity | repeat constructor].
Qed.



(** * Further properties of the threshold *)

(** The rational comparison against [np.mean], in integers. *)
Lemma level_above_mean (s : Image Z) (v : Z) :
  0 < stat_count s ->
  level (np_mean (np_array s)) v = if above_mean (pixels s) v then 255 else 0.
Proof.
  intros Hc. pose proof (np_mean_spec s Hc) as Hmean.
  assert (Hn : (0 < inject_Z (stat_count s))%Q)
    by (change 0%Q with (inject_Z 0); now rewrite <- Zlt_Qlt).
  unfold above_mean. fold (stat_sum s). fold (stat_count s).
  destruct (level_cases (np_mean (np_array s)) v) as [[-> Hlt]|[-> Hle]].
  - apply (Qmult_lt_compat_r _ _ _ Hn) in Hlt.
    rewrite Hmean, <- inject_Z_mult, <- Zlt_Qlt in Hlt.
    destruct (Z.ltb_spec (stat_sum s) (stat_count s * v)); [reflexivity | lia].
  - apply (fun H => Qmult_le_compat_r _ _ (inject_Z (stat_count s)) H
                      (Qlt_le_weak _ _ Hn)) in Hle.
    rewrite Hmean, <- inject_Z_mult, <- Zle_Qle in Hle.
    destruct (Z.ltb_spec (stat_sum s) (stat_count s * v)); [lia | reflexivity].
Qed.

Lemma Zsum_deviation (n c : Z) (l : list Z) :
  Zsum (map (fun v => n * v - c) l) = n * Zsum l - Z.of_nat (length l) * c.
Proof.
  induction l as [|a t IH]; [unfold Zsum; simpl; lia|].
  change (Zsum (map (fun v => n * v - c) (a :: t)))
    with (n * a - c + Zsum (map (fun v => n * v - c) t)).
  change (Zsum (a :: t)) with (a + Zsum t).
  rewrite IH. simpl length. lia.
Qed.

Lemma Zsum_pos (l : list Z) :
  l <> [] -> Forall (fun d => 0 < d) l -> 0 < Zsum l.
Proof.
  intros Hne H. induction H as [|a t Ha Ht IH]; [contradiction|].
  change (Zsum (a :: t)) with (a + Zsum t).
  destruct t as [|b t']; [unfold Zsum; simpl; lia|].
  assert (0 < Zsum (b :: t')) by (apply IH; discriminate). lia.
Qed.

Lemma Zsum_nonpos_zero (l : list Z) :
  Forall (fun d => d <= 0) l -> Zsum l = 0 -> Forall (fun d => d = 0) l.
Proof.
  induction 1 as [|a t Ha Ht IH]; intros Hsum; [constructor|].
  change (Zsum (a :: t)) with (a + Zsum t) in Hsum.
  assert (Hle : Zsum t <= 0).
  { clear - Ht. induction Ht as [|b u Hb _ IHu]; [reflexivity|].
    change (Zsum (b :: u)) with (b + Zsum u). lia. }
  constructor; [lia | apply IH; lia].
Qed.

(** Some pixel is not above the mean. *)
Lemma some_pixel_not_above (l : list Z) :
  l <> [] -> exists v, In v l /\ above_mean l v = false.
Proof.
  intros Hne.
  destruct (Forall_Exists_dec (fun v => above_mean l v = true)
              (fun v => bool_dec (above_mean l v) true) l) as [Hall|Hex].
  - exfalso.
    assert (Hpos : 0 < Zsum (map (fun v => Z.of_nat (length l) * v - Zsum l) l)).
    { apply Zsum_pos; [now destruct l|].
      apply Forall_map. eapply Forall_impl; [|exact Hall].
      intros v Hv. unfold above_mean in Hv. apply Z.ltb_lt in Hv. lia. }
    rewrite Zsum_deviation in Hpos. lia.
  - apply Exists_exists in Hex. destruct Hex as [v [Hin Hv]].
    exists v. split; [assumption | now apply not_true_is_false].
Qed.

(** No pixel is above the mean exactly when all pixels are equal. *)
Lemma none_above_iff_flat (l : list Z) :
  Forall (fun v => above_mean l v = false) l
  <-> exists c, Forall (fun v => v = c) l.
Proof.
  split.
  - intros Hnone.
    assert (Hzero : Forall (fun d => d = 0)
                      (map (fun v => Z.of_nat (length l) * v - Zsum l) l)).
    { apply Zsum_nonpos_zero.
      - apply Forall_map. eapply Forall_impl; [|exact Hnone].
        intros v Hv. unfold above_mean in Hv. apply Z.ltb_ge in Hv. lia.
      - rewrite Zsum_deviation. lia. }
    destruct l as [|a t]; [exists 0; constructor|].
    exists a. rewrite Forall_map in Hzero.
    pose proof (Forall_inv Hzero) as Ha. cbv beta in Ha.
    eapply Forall_impl; [|exact Hzero]. intros v Hv. cbv beta in Hv.
    assert (Hn : 0 < Z.of_nat (length (a :: t))) by (simpl length; lia).
    set (n := Z.of_nat (length (a :: t))) in *. nia.
  - intros [c Hc]. rewrite Forall_forall in *. intros v Hv.
    unfold above_mean. rewrite (Zsum_const c l) by (now apply Forall_forall).
    rewrite (Hc v Hv). apply Z.ltb_irrefl.
Qed.

Lemma pixels_binarize (s : Image Z) :
  pixels (binarize s) = map (level (np_mean (np_array s))) (pixels s).
Proof.
  rewrite binarize_rows. unfold pixels. simpl. symmetry. apply concat_map.
Qed.

Lemma pixels_nonempty (s : Image Z) : 0 < stat_count s -> pixels s <> [].
Proof.
  unfold stat_count. intros H Hnil. rewrite Hnil in H. simpl in H. lia.
Qed.

(** X21. The returned image is never all white: at least one pixel of every
    result is 0, because some pixel of the sharpened image is not above the
    mean. *)
Theorem preprocess_image_has_black (image : Image RGB) :
  well_formed image -> (0 < xsize image)%nat -> (0 < ysize image)%nat ->
  exists out, preprocess_image image = Ok out /\ In 0 (pixels out).
Proof.
  intros Hwf Hx Hy.
  destruct (sharpened_stage_ok image Hwf Hx Hy) as [s [Hs [Hws [Hsx Hsy]]]].
  exists (binarize s). split; [unfold preprocess_image; now rewrite Hs|].
  assert (Hc : 0 < stat_count s) by (apply stat_count_pos; [assumption|lia|lia]).
  destruct (some_pixel_not_above (pixels s) (pixels_nonempty s Hc)) as [v [Hin Hv]].
  rewrite pixels_binarize. apply in_map_iff. exists v. split; [|assumption].
  now rewrite (level_above_mean s v Hc), Hv.
Qed.

Lemma preprocess_image_has_black_witness :
  exists out, preprocess_image img_3x3 = Ok out /\ In 0 (pixels out).
Proof.
  apply (preprocess_image_has_black img_3x3).
  - split; [reflexivity | repeat constructor].
  - simpl; lia.
  - simpl; lia.
Defined.

(** X22. The result is all black exactly when the sharpened image is flat:
    as soon as two sharpened pixels differ, some pixel of the result is
    255. *)
Theorem black_result_iff_flat (image : Image RGB) :
  well_formed image -> (0 < xsize image)%nat -> (0 < ysize image)%nat ->
  exists sharpened out,
    sharpened_stage image = Ok sharpened
    /\ preprocess_image image = Ok out
    /\ (uniform 0 out <-> exists u, uniform u sharpened)
    /\ (In 255 (pixels out) <-> ~ exists u, uniform u sharpened).
Proof.
  intros Hwf Hx Hy.
  destruct (sharpened_stage_ok image Hwf Hx Hy) as [s [Hs [Hws [Hsx Hsy]]]].
  exists s, (binarize s). split; [assumption|].
  split; [unfold preprocess_image; now rewrite Hs|].
  assert (Hc : 0 < stat_count s) by (apply stat_count_pos; [assumption|lia|lia]).
  assert (Hpix : forall u (im : Image Z),
             uniform u im <-> Forall (fun v => v = u) (pixels im)).
  { intros u im. unfold uniform, pixels. symmetry. apply Forall_concat. }
  assert (Hflat : uniform 0 (binarize s) <-> exists u, uniform u s).
  { rewrite Hpix, pixels_binarize, Forall_map.
    transitivity (Forall (fun v => above_mean (pixels s) v = false) (pixels s)).
    - split; intros H; (eapply Forall_impl; [|exact H]); intros v Hv;
        cbv beta in *; rewrite (level_above_mean s v Hc) in *;
        destruct (above_mean (pixels s) v); congruence.
    - rewrite none_above_iff_flat.
      split; intros [u Hu]; exists u; now apply Hpix. }
  split; [exact Hflat|].
  rewrite <- Hflat, Hpix, pixels_binarize. split.
  - intros Hin Hall. rewrite Forall_forall in Hall.
    specialize (Hall 255 Hin). discriminate.
  - intros Hnot.
    destruct (Forall_Exists_dec (fun p => p = 0) (fun p => Z.eq_dec p 0)
                (map (level (np_mean (np_array s))) (pixels s))) as [Hall|Hex];
      [contradiction|].
    apply Exists_exists in Hex. destruct Hex as [p [Hin Hp]].
    assert (p = 255); [|now subst].
    apply in_map_iff in Hin. destruct Hin as [v [<- _]].
    destruct (level_cases (np_mean (np_array s)) v) as [[H _]|[H _]];
      [assumption | contradiction].
Qed.

Lemma black_result_iff_flat_witness :
  exists sharpened out,
    sharpened_stage img_3x3 = Ok sharpened
    /\ preprocess_image img_3x3 = Ok out
    /\ (uniform 0 out <-> exists u, uniform u sharpened)
    /\ (In 255 (pixels out) <-> ~ exists u, uniform u sharpened).
Proof.
  apply (black_result_iff_flat img_3x3).
  - split; [reflexivity | repeat constructor].
  - simpl; lia.
  - simpl; lia.
Defined.

Lemma Zsum_two_levels (l : list Z) :
  Forall (fun p => p = 0 \/ p = 255) l ->
  0 <= Zsum l <= 255 * Z.of_nat (length l)
  /\ (In 0 l -> Zsum l < 255 * Z.of_nat (length l)).
Proof.
  induction 1 as [|a t Ha _ IH]; [split; [unfold Zsum; simpl; lia | intros []]|].
  change (Zsum (a :: t)) with (a + Zsum t).
  destruct IH as [Hb Hs]. simpl length. split; [lia|].
  intros [H0|Hin]; [lia | specialize (Hs Hin); lia].
Qed.

(** X23. Thresholding is idempotent: applied to an image it has already
    produced, the final stage changes nothing. *)
Theorem binarize_idempotent (sharpened : Image Z) :
  0 < stat_count sharpened ->
  binarize (binarize sharpened) = binarize sharpened.
Proof.
  intros Hc. set (out := binarize sharpened).
  assert (Hpix : pixels out
                 = map (level (np_mean (np_array sharpened))) (pixels sharpened))
    by apply pixels_binarize.
  assert (Hco : 0 < stat_count out).
  { unfold stat_count in *. now rewrite Hpix, length_map. }
  assert (Hlv : Forall (fun p => p = 0 \/ p = 255) (pixels out)).
  { rewrite Hpix. apply Forall_map, Forall_forall. intros v _.
    destruct (level_cases (np_mean (np_array sharpened)) v) as [[-> _]|[-> _]]; auto. }
  assert (H0 : In 0 (pixels out)).
  { destruct (some_pixel_not_above (pixels sharpened) (pixels_nonempty _ Hc))
      as [v [Hin Hv]].
    rewrite Hpix. apply in_map_iff. exists v. split; [|assumption].
    now rewrite (level_above_mean sharpened v Hc), Hv. }
  destruct (Zsum_two_levels (pixels out) Hlv) as [Hb Hs]. specialize (Hs H0).
  assert (Hfix : forall p, In p (pixels out) ->
                           level (np_mean (np_array out)) p = p).
  { intros p Hp. rewrite (level_above_mean out p Hco). unfold above_mean.
    rewrite Forall_forall in Hlv. destruct (Hlv p Hp) as [-> | ->].
    - destruct (Z.ltb_spec (Zsum (pixels out)) (Z.of_nat (length (pixels out)) * 0));
        [lia | reflexivity].
    - destruct (Z.ltb_spec (Zsum (pixels out)) (Z.of_nat (length (pixels out)) * 255));
        [reflexivity | lia]. }
  rewrite (binarize_rows out).
  assert (Hrows : map (map (level (np_mean (np_array out)))) (rows out) = rows out).
  { rewrite <- (map_id (rows out)) at 2. apply map_ext_in. intros row Hrow.
    rewrite <- (map_id row) at 2. apply map_ext_in. intros p Hp.
    apply Hfix. unfold pixels. apply in_concat. exists row. now split. }
  rewrite Hrows. now destruct out.
Qed.

Lemma binarize_idempotent_witness :
  binarize (binarize (mkImage 3 3 [[50; 50; 50]; [50; 70; 50]; [50; 50; 50]]))
  = binarize (mkImage 3 3 [[50; 50; 50]; [50; 70; 50]; [50; 50; 50]]).
Proof.
  apply (binarize_idempotent
           (mkImage 3 3 [[50; 50; 50]; [50; 70; 50]; [50; 50; 50]])).
  reflexivity.
Defined.

Lemma engine_dispatch_witness :
  let w := process_capture img_3x3 MainWindow_init in
  (ocr_combo w = 0%nat ->
   Forall (fun c => match c with ImportEasyOCR | EasyOCR _ => False | _ => True end)
          (snd (extract_text (ocr_returning "HELLO") w)))
  /\ (ocr_combo w = 1%nat ->
      Forall (fun c => match c with Tesseract _ _ => False | _ => True end)
             (snd (extract_text (ocr_returning "HELLO") w)))
  /\ (forall image, captured_image w = Some image ->
        exists rest,
          snd (extract_text (ocr_returning "HELLO") w)
          = ProcessEvents :: Preprocess image :: rest
          /\ Forall (fun c => match c with Preprocess _ => False | _ => True end)
                    rest).
Proof.
  exact (engine_dispatch (ocr_returning "HELLO")
           (process_capture img_3x3 MainWindow_init)).
Defined.
